(** * proHeader: a shallow embedding of the header generator

    The extension inserts a comment header (and, for C and C++ files, an
    include guard, a class skeleton or an implementation stub) at the
    top of a document.  The development follows its two source
    variants: the legacy command ([extension.js]; modules [Legacy] and
    [LegacyCommand]) and the current one, which adds comment styles,
    the detection of an existing header and the insertion on file
    creation.

    Modelling choices.
    - JavaScript strings are [string]s; a character of the model stands
      for one code unit of the ASCII range, and case conversion, white
      space and line terminators are the ASCII ones.  A value that may
      be [undefined] is an [option string] ([JS.value]).
    - The regular expressions of the source are terms of [Regex.regex],
      run by a derivative matcher; [Matches] is their language.
    - [path.extname] and [path.basename] belong to Node, not to the
      extension; module [Path] gives their POSIX behaviour.  The
      theorems about the entry points only use what these functions
      return for the document at hand.
    - The host editor is an explicit state ([Host]): the document, the
      settings, the environment, the clock, the answers the user will
      give, and the trace of events (prompts, notices, insertions,
      settings updates).  An [async function] is a [Task]: a state
      transformer that ends normally, with [return], or with an
      exception.  An insertion always succeeds; a settings update is
      rejected when the settings are not writable. *)

From Stdlib Require Import Ascii String ZArith Lia DecimalString DecimalPos.
From stdpp Require Import base option list strings gmap.

#[local] Open Scope string_scope.
#[local] Arguments String.append : simpl nomatch.

(** ** JavaScript strings and arrays of strings *)

Module JS.

(** [undefined] is [None]; a prompt that is dismissed yields it. *)
Definition value := option string.

(** Truthiness of a string-or-undefined value. *)
Definition truthy (v : value) : bool :=
  match v with
  | Some (String _ _) => true
  | _ => false
  end.

(** [a || b] on strings. *)
Definition or_str (a b : string) : string :=
  match a with
  | EmptyString => b
  | _ => a
  end.

(** [v || d] where [d] is a string. *)
Definition orElse (v : value) (d : string) : string :=
  match v with
  | Some (String c s) => String c s
  | _ => d
  end.

(** The string a truthy value interpolates to in a template literal. *)
Definition text_of (v : value) : string := default "" v.

Definition code (c : ascii) : nat := nat_of_ascii c.

Definition between (lo hi : nat) (c : ascii) : bool :=
  (lo <=? code c)%nat && (code c <=? hi)%nat.

Definition is_digit : ascii -> bool := between 48 57.
Definition is_upper : ascii -> bool := between 65 90.
Definition is_lower : ascii -> bool := between 97 122.

(** The character class [[a-zA-Z0-9]]. *)
Definition is_alnum (c : ascii) : bool :=
  is_lower c || is_upper c || is_digit c.

(** The class [\s] on the ASCII range. *)
Definition is_space (c : ascii) : bool :=
  between 9 13 c || (code c =? 32)%nat.

Definition upper_char (c : ascii) : ascii :=
  if is_lower c then ascii_of_nat (code c - 32) else c.

Definition lower_char (c : ascii) : ascii :=
  if is_upper c then ascii_of_nat (code c + 32) else c.

Fixpoint map_chars (f : ascii -> ascii) (s : string) : string :=
  match s with
  | EmptyString => EmptyString
  | String c s' => String (f c) (map_chars f s')
  end.

Definition toUpperCase : string -> string := map_chars upper_char.
Definition toLowerCase : string -> string := map_chars lower_char.

(** [s.replace(/[cls]/g, r)] for a one-character class. *)
Definition replace_class (cls : ascii -> bool) (r : ascii) : string -> string :=
  map_chars (fun c => if cls c then r else c).

(** [s.charAt(0)] and [s.slice(1)]. *)
Definition charAt0 (s : string) : string :=
  match s with
  | EmptyString => EmptyString
  | String c _ => String c EmptyString
  end.

Definition slice1 (s : string) : string :=
  match s with
  | EmptyString => EmptyString
  | String _ s' => s'
  end.

(** [s.split(sep)] for a one-character separator: the pieces between
    the separators, empty pieces included. *)
Fixpoint split (sep : ascii) (s : string) : list string :=
  match s with
  | EmptyString => [EmptyString]
  | String c s' =>
      if Ascii.eqb c sep then EmptyString :: split sep s'
      else match split sep s' with
           | x :: xs => String c x :: xs
           | [] => [String c EmptyString]
           end
  end.

(** [s.split(/[cls]+/)]: the pieces between the maximal runs of
    characters of the class; [run] tells that the previous character
    belonged to a run. *)
Fixpoint split_runs (cls : ascii -> bool) (run : bool) (s : string) : list string :=
  match s with
  | EmptyString => [EmptyString]
  | String c s' =>
      if cls c then
        if run then split_runs cls true s'
        else EmptyString :: split_runs cls true s'
      else match split_runs cls false s' with
           | x :: xs => String c x :: xs
           | [] => [String c EmptyString]
           end
  end.

(** [a.push(x)], as a new array. *)
Definition push (a : list string) (x : string) : list string :=
  app a (cons x nil).

(** [a.join(sep)]. *)
Fixpoint join (sep : string) (a : list string) : string :=
  match a with
  | [] => EmptyString
  | [x] => x
  | x :: rest => x ++ sep ++ join sep rest
  end.

(** [a.filter(Boolean)] on an array of strings. *)
Definition filter_nonempty (a : list string) : list string :=
  List.filter (fun s => negb (String.eqb s EmptyString)) a.

Fixpoint trimStart (s : string) : string :=
  match s with
  | EmptyString => EmptyString
  | String c s' => if is_space c then trimStart s' else s
  end.

(** [trimEnd] keeps a character when it is not white space or when
    something remains after it. *)
Fixpoint trimEnd (s : string) : string :=
  match s with
  | EmptyString => EmptyString
  | String c s' =>
      match trimEnd s' with
      | EmptyString => if is_space c then EmptyString else String c EmptyString
      | t => String c t
      end
  end.

Definition trim (s : string) : string := trimEnd (trimStart s).

Fixpoint startsWith (p s : string) : bool :=
  match p, s with
  | EmptyString, _ => true
  | String a p', String b s' => Ascii.eqb a b && startsWith p' s'
  | String _ _, EmptyString => false
  end.

Fixpoint endsWith_go (p s : string) (n : nat) : bool :=
  match n, s with
  | O, _ => String.eqb p s
  | S n', String _ s' => endsWith_go p s' n'
  | S _, EmptyString => false
  end.

Definition endsWith (p s : string) : bool :=
  (String.length p <=? String.length s)%nat
  && endsWith_go p s (String.length s - String.length p).

Fixpoint take_chars (n : nat) (s : string) : string :=
  match n, s with
  | S n', String c s' => String c (take_chars n' s')
  | _, _ => EmptyString
  end.

Fixpoint repeat_char (c : ascii) (n : nat) : string :=
  match n with
  | O => EmptyString
  | S n' => String c (repeat_char c n')
  end.

(** [String(n).padStart(2, '0')] for a natural number. *)
Definition pad2 (n : nat) : string :=
  let s := NilEmpty.string_of_uint (Nat.to_uint n) in
  repeat_char "0"%char (2 - String.length s) ++ s.

End JS.

(** ** Regular expressions, as far as [RegExp.prototype.test] needs them *)

Module Regex.

Inductive regex : Type :=
| Void : regex
| Eps : regex
| Chr : ascii -> regex
| Class : (ascii -> bool) -> regex
| Cat : regex -> regex -> regex
| Alt : regex -> regex -> regex
| Star : regex -> regex.

(** [r+] and [r{3,}]. *)
Definition Plus (r : regex) : regex := Cat r (Star r).
Definition AtLeast3 (r : regex) : regex := Cat r (Cat r (Cat r (Star r))).

(** A literal sequence of characters. *)
Fixpoint Lit (s : string) : regex :=
  match s with
  | EmptyString => Eps
  | String c s' => Cat (Chr c) (Lit s')
  end.

Fixpoint nullable (r : regex) : bool :=
  match r with
  | Void => false
  | Eps => true
  | Chr _ => false
  | Class _ => false
  | Cat r1 r2 => nullable r1 && nullable r2
  | Alt r1 r2 => nullable r1 || nullable r2
  | Star _ => true
  end.

Fixpoint deriv (c : ascii) (r : regex) : regex :=
  match r with
  | Void => Void
  | Eps => Void
  | Chr d => if Ascii.eqb c d then Eps else Void
  | Class p => if p c then Eps else Void
  | Cat r1 r2 =>
      if nullable r1 then Alt (Cat (deriv c r1) r2) (deriv c r2)
      else Cat (deriv c r1) r2
  | Alt r1 r2 => Alt (deriv c r1) (deriv c r2)
  | Star r1 => Cat (deriv c r1) (Star r1)
  end.

(** Some prefix of [s] matches [r]: a match attempt at one position. *)
Fixpoint match_here (r : regex) (s : string) : bool :=
  nullable r ||
  match s with
  | EmptyString => false
  | String c s' => match_here (deriv c r) s'
  end.

(** [/r/.test(s)]: an attempt at every position. *)
Fixpoint test (r : regex) (s : string) : bool :=
  match_here r s ||
  match s with
  | EmptyString => false
  | String _ s' => test r s'
  end.

(** [/^r/.test(s)]: the only attempt is at the start of the input. *)
Definition test_start (r : regex) (s : string) : bool := match_here r s.

(** Line terminators of the ASCII range, after which [^] matches
    under the [m] flag. *)
Definition is_line_terminator (c : ascii) : bool :=
  (JS.code c =? 10)%nat || (JS.code c =? 13)%nat.

Fixpoint test_after (r : regex) (s : string) : bool :=
  match s with
  | EmptyString => false
  | String c s' =>
      (is_line_terminator c && match_here r s') || test_after r s'
  end.

(** [/^r/m.test(s)]: attempts at the start of every line. *)
Definition test_line_start (r : regex) (s : string) : bool :=
  match_here r s || test_after r s.

End Regex.

(** ** Node's [path] module (POSIX flavour), as the extension uses it *)

Module Path.

(** The last non-empty piece between slashes: the component that
    [basename] and [extname] look at, trailing slashes ignored. *)
Definition component (p : string) : string :=
  List.last (JS.filter_nonempty (JS.split "/"%char p)) EmptyString.

(** The suffix of [s] that starts at its last dot. *)
Fixpoint from_last_dot (s : string) : option string :=
  match s with
  | EmptyString => None
  | String c s' =>
      match from_last_dot s' with
      | Some e => Some e
      | None => if Ascii.eqb c "."%char then Some s else None
      end
  end.

(** [path.extname(p)]: from the last dot of the component to its end;
    empty when there is no dot, when the only dot starts the
    component, and for the component [..]. *)
Definition extname (p : string) : string :=
  match component p with
  | EmptyString => EmptyString
  | String c rest =>
      if String.eqb (String c rest) ".." then EmptyString
      else default EmptyString (from_last_dot rest)
  end.

(** [path.basename(p)]. *)
Definition basename (p : string) : string := component p.

(** [path.basename(p, suffix)]: the component, without [suffix] when
    it ends with it and is more than it. *)
Definition basename_without (p suffix : string) : string :=
  let comp := component p in
  if String.eqb suffix EmptyString
     || negb (String.length suffix <=? String.length p)%nat
  then comp
  else if String.eqb suffix p then EmptyString
  else if JS.endsWith suffix comp && negb (String.eqb suffix comp)
  then JS.take_chars (String.length comp - String.length suffix) comp
  else comp.

End Path.

(** ** The pure functions shared by both variants *)

Record Date : Type := mkDate {
  getFullYear : Z;
  getMonth : nat;   (* 0 for January *)
  getDate : nat
}.

(** Format date as YYYY-MM-DD. *)
Definition formatDate (d : Date) : string :=
  let yyyy := NilEmpty.string_of_int (Z.to_int (getFullYear d)) in
  let mm := JS.pad2 (getMonth d + 1) in
  let dd := JS.pad2 (getDate d) in
  yyyy ++ "-" ++ mm ++ "-" ++ dd.

Definition non_alnum (c : ascii) : bool := negb (JS.is_alnum c).

(** [(basename + '_' + ext).replace(/[^a-zA-Z0-9]/g, '_').toUpperCase() + '_'] *)
Definition makeGuardMacro (basename ext : string) : string :=
  let raw :=
    JS.toUpperCase (JS.replace_class non_alnum "_"%char (basename ++ "_" ++ ext)) in
  raw ++ "_".

(** [basename.split(/[^a-zA-Z0-9]+/).filter(Boolean)
      .map(s => s.charAt(0).toUpperCase() + s.slice(1)).join('')] *)
Definition toClassName (basename : string) : string :=
  JS.join EmptyString
    (List.map (fun s => JS.toUpperCase (JS.charAt0 s) ++ JS.slice1 s)
       (JS.filter_nonempty (JS.split_runs non_alnum false basename))).


(** The answer of [detectStyle]. *)
Record Detected : Type := mkDetected {
  style : string;
  shebang : bool
}.

(** Existing-header detection: the signatures looked for. *)
Definition re_block_open : Regex.regex := Regex.Lit "/**".              (* /\/\*\*/ *)
Definition re_shebang : Regex.regex := Regex.Lit "#!".                  (* /^#!/ *)
Definition re_border : Regex.regex := Regex.AtLeast3 (Regex.Chr "=").   (* /={3,}/ *)
Definition re_hash_border : Regex.regex :=                              (* /#+\s*={3,}/ *)
  Regex.Cat (Regex.Plus (Regex.Chr "#"))
    (Regex.Cat (Regex.Star (Regex.Class JS.is_space)) re_border).
Definition re_hash_line : Regex.regex :=                                (* /^#\s*={3,}/m *)
  Regex.Cat (Regex.Chr "#")
    (Regex.Cat (Regex.Star (Regex.Class JS.is_space)) re_border).

Definition newline : string := String "010"%char EmptyString.

(** [text.split('\n').slice(0, n).join('\n')] *)
Definition first_lines (n : nat) (text : string) : string :=
  JS.join newline (take n (JS.split "010"%char text)).

Definition hasHeaderAtTop (text : string) : bool :=
  if String.eqb text EmptyString then false
  else
    let head := first_lines 8 text in
    if Regex.test re_block_open head then true
    else if Regex.test_start re_shebang (JS.trim head)
            && (let rest := first_lines 10 text in
                Regex.test re_border rest || Regex.test re_hash_border rest)
    then true
    else if Regex.test re_border head then true
    else if Regex.test_line_start re_hash_line head then true
    else false.

(** ** The legacy variant *)

Module Legacy.

Definition makeCommentBlock (filename : string) (description author date : JS.value)
  : string :=
  let lines := ["/**=============================================="] in
  let lines := JS.push lines (" *                " ++ filename) in
  let lines :=
    if JS.truthy description then JS.push lines (" *  " ++ JS.text_of description)
    else lines in
  let lines :=
    if JS.truthy author then JS.push lines (" *  Author: " ++ JS.text_of author)
    else lines in
  let lines :=
    if JS.truthy date then JS.push lines (" *  Date: " ++ JS.text_of date)
    else lines in
  let lines := JS.push lines (" *=============================================**/") in
  JS.join newline lines ++ newline ++ newline.

End Legacy.

(** ** The current variant *)

(** The block rendering of the inner lines: the branch [style === 'block']. *)
Definition block_lines (inner : list string) : list string :=
  let lines := ["/**" ++ nth 0 inner EmptyString] in
  (* for (let i = 1; i < inner.length - 1; i++) *)
  let lines :=
    app lines (List.map (fun l => " * " ++ l)
                 (take (List.length inner - 2) (drop 1 inner))) in
  JS.push lines (" *" ++ nth (List.length inner - 1) inner EmptyString ++ "**/").

Definition makeCommentBlock (filename : string) (description author date : JS.value)
  (style : string) : string :=
  let inner := ["=============================================="] in
  let inner := JS.push inner ("                " ++ filename) in
  let inner :=
    if JS.truthy description then JS.push inner (" " ++ JS.text_of description)
    else inner in
  let inner :=
    if JS.truthy author then JS.push inner (" Author: " ++ JS.text_of author)
    else inner in
  let inner :=
    if JS.truthy date then JS.push inner (" Date: " ++ JS.text_of date)
    else inner in
  let inner := JS.push inner ("=============================================") in
  if String.eqb style "block" then
    JS.join newline (block_lines inner) ++ newline ++ newline
  else if String.eqb style "hash" || String.eqb style "cpp" then
    let prefix := if String.eqb style "hash" then "# " else "// " in
    let lines := List.map (fun l => prefix ++ l) inner in
    JS.join newline lines ++ newline ++ newline
  else
    (* fallback to block: the recursive call takes the first branch *)
    JS.join newline (block_lines inner) ++ newline ++ newline.

Definition detectStyle (extNoDot basenameWithExt : string) : Detected :=
  let b := JS.toLowerCase basenameWithExt in
  if String.eqb extNoDot "py" then mkDetected "hash" true
  else if String.eqb extNoDot EmptyString && String.eqb b "makefile"
  then mkDetected "hash" false
  else mkDetected "block" false.

(** ** The host editor *)

(** A text document of the editor.  The [uri] of a document is always
    present; [fileName] may be empty for a document without a file. *)
Record TextDocument : Type := mkDocument {
  fileName : string;
  uri_fsPath : string;
  uri_path : string;
  getText : string
}.

(** What an invocation does to the outside, in the order it does it. *)
Inductive Event : Type :=
| InputBox (prompt : string) (placeHolder : JS.value) (value : string) (answer : JS.value)
| InformationMessage (message : string)
| WarningMessage (message : string)
| Inserted (text : string)
| ConfigurationUpdated (key value : string)
| ConsoleError (message : string).

(** The state of the host: the document handed to the entry point (the
    one of the active editor for the command, the opened one for a
    creation event; [None] when there is none), the settings of the
    section [proheader], the process environment, the clock, the
    answers the user will give to the coming prompts ([None] for a
    dismissed prompt; a prompt without an answer left is dismissed),
    whether the settings accept a write, and the events so far. *)
Record Host : Type := mkHost {
  document : option TextDocument;
  configuration : gmap string string;
  environment : gmap string string;
  clock : Date;
  answers : list JS.value;
  settings_writable : bool;
  events : list Event
}.

Definition emit (e : Event) (h : Host) : Host :=
  mkHost (document h) (configuration h) (environment h) (clock h)
    (answers h) (settings_writable h) (app (events h) [e]).

Definition with_answers (a : list JS.value) (h : Host) : Host :=
  mkHost (document h) (configuration h) (environment h) (clock h)
    a (settings_writable h) (events h).

Definition with_document (d : option TextDocument) (h : Host) : Host :=
  mkHost d (configuration h) (environment h) (clock h)
    (answers h) (settings_writable h) (events h).

Definition with_configuration (c : gmap string string) (h : Host) : Host :=
  mkHost (document h) c (environment h) (clock h)
    (answers h) (settings_writable h) (events h).

(** How a piece of an [async function] ends: with a value, with a
    [return] out of the function, or with an exception. *)
Inductive Completion (A : Type) : Type :=
| Normal (a : A)
| Returned
| Thrown (err : string).

Arguments Normal {A} a.
Arguments Returned {A}.
Arguments Thrown {A} err.

Definition Task (A : Type) : Type := Host -> Completion A * Host.

Definition ret {A : Type} (a : A) : Task A := fun h => (Normal a, h).

Definition bind {A B : Type} (t : Task A) (k : A -> Task B) : Task B :=
  fun h =>
    match t h with
    | (Normal a, h') => k a h'
    | (Returned, h') => (Returned, h')
    | (Thrown e, h') => (Thrown e, h')
    end.

Declare Scope task_scope.
Delimit Scope task_scope with task.
Notation "'do' x <- t ;; k" := (bind t (fun x => k))
  (at level 10, x name, t at level 99, k at level 200) : task_scope.

#[local] Open Scope task_scope.

(** [return;] *)
Definition return_ {A : Type} : Task A := fun h => (Returned, h).

Definition throw {A : Type} (err : string) : Task A := fun h => (Thrown err, h).

(** [try { body } catch (err) { handler }] *)
Definition try_catch (body : Task unit) (handler : string -> Task unit) : Task unit :=
  fun h =>
    match body h with
    | (Thrown e, h') => handler e h'
    | r => r
    end.

(** The host after the call of an [async function]. *)
Definition run (t : Task unit) (h : Host) : Host := snd (t h).

Definition perform (e : Event) : Task unit := fun h => (Normal tt, emit e h).

(** [vscode.window.activeTextEditor] and the [doc] argument. *)
Definition current_document : Task (option TextDocument) :=
  fun h => (Normal (document h), h).

(** [doc.getText()]: the text the document has now. *)
Definition doc_getText (doc : TextDocument) : Task string :=
  fun h => (Normal (from_option getText (getText doc) (document h)), h).

(** [vscode.window.showInputBox({ prompt, placeHolder, value })] *)
Definition showInputBox (prompt : string) (placeHolder : JS.value) (value : string)
  : Task JS.value :=
  fun h =>
    let answer := mjoin (head (answers h)) in
    (Normal answer,
     emit (InputBox prompt placeHolder value answer) (with_answers (tail (answers h)) h)).

Definition showInformationMessage (message : string) : Task unit :=
  perform (InformationMessage message).

Definition showWarningMessage (message : string) : Task unit :=
  perform (WarningMessage message).

Definition console_error (message : string) : Task unit :=
  perform (ConsoleError message).

(** [config.get(key)] *)
Definition config_get (key : string) : Task JS.value :=
  fun h => (Normal (configuration h !! key), h).

(** [config.update(key, value, ConfigurationTarget.Global)]: rejected
    when the settings do not accept the write. *)
Definition config_update (key value : string) : Task unit :=
  fun h =>
    if settings_writable h then
      (Normal tt,
       emit (ConfigurationUpdated key value)
         (with_configuration (<[key := value]> (configuration h)) h))
    else (Thrown "Unable to write to User Settings", h).

(** [process.env.NAME] *)
Definition env_get (name : string) : Task JS.value :=
  fun h => (Normal (environment h !! name), h).

(** [new Date()] *)
Definition new_Date : Task Date := fun h => (Normal (clock h), h).

(** One insertion at position (0, 0) of the document. *)
Definition insert_at_top (text : string) : Task unit :=
  fun h =>
    let d' := (fun d => mkDocument (fileName d) (uri_fsPath d) (uri_path d)
                          (text ++ getText d)) <$> document h in
    (Normal tt, emit (Inserted text) (with_document d' h)).

(** ** File identity *)

Record FileIdentity : Type := mkIdentity {
  ext : string;               (* lower case, with its dot *)
  basenameWithExt : string;
  basename : string;
  extNoDot : string
}.

Definition strip_dot (ext : string) : string :=
  if JS.startsWith "." ext then JS.slice1 ext else ext.

(** The command: identity from [doc.fileName]. *)
Definition identity_of_editor (doc : TextDocument) : FileIdentity :=
  let filePath := fileName doc in
  let ext := JS.toLowerCase (Path.extname filePath) in
  let basenameWithExt := Path.basename filePath in
  let basename := Path.basename_without filePath ext in
  let extNoDot := strip_dot ext in
  mkIdentity ext basenameWithExt basename extNoDot.

(** A created document: identity from [doc.fileName], else from its uri. *)
Definition identity_of_created (doc : TextDocument) : FileIdentity :=
  let filePath := JS.or_str (fileName doc) (JS.or_str (uri_fsPath doc) EmptyString) in
  let ext := JS.toLowerCase (Path.extname filePath) in
  let basenameWithExt :=
    Path.basename (JS.or_str filePath (JS.or_str (uri_path doc) EmptyString)) in
  let basename := Path.basename_without basenameWithExt ext in
  let extNoDot := strip_dot ext in
  mkIdentity ext basenameWithExt basename extNoDot.

(** ** Content per extension *)

(** [`#ifndef ${m}\n#define ${m}\n\n\n#endif /* !${m} */\n`] *)
Definition guard_block (m : string) : string :=
  "#ifndef " ++ m ++ newline ++ "#define " ++ m ++ newline ++ newline ++ newline
  ++ "#endif /* !" ++ m ++ " */" ++ newline.

Definition classBlock (className : string) : list string :=
  let classBlock := [] in
  let classBlock := JS.push classBlock ("class " ++ className ++ " {") in
  let classBlock := JS.push classBlock "    public:" in
  let classBlock := JS.push classBlock ("        " ++ className ++ "();") in
  let classBlock := JS.push classBlock ("        ~" ++ className ++ "();") in
  let classBlock := JS.push classBlock "" in
  let classBlock := JS.push classBlock "    protected:" in
  let classBlock := JS.push classBlock "    private:" in
  JS.push classBlock "};".

Definition guarded_class (m className : string) : string :=
  ("#ifndef " ++ m ++ newline ++ "#define " ++ m ++ newline ++ newline)
  ++ JS.join newline (classBlock className)
  ++ (newline ++ newline ++ "#endif /* !") ++ m ++ (" */" ++ newline).

Definition quote : string := String "034"%char EmptyString.

Definition impl (basename : string) : list string :=
  let className := toClassName basename in
  let headerFile := basename ++ ".hpp" in
  let impl := [] in
  let impl := JS.push impl ("#include " ++ quote ++ headerFile ++ quote ++ newline) in
  let impl := JS.push impl (className ++ "::" ++ className ++ "()") in
  let impl := JS.push impl "{" in
  let impl := JS.push impl "}" in
  let impl := JS.push impl "" in
  let impl := JS.push impl (className ++ "::~" ++ className ++ "()") in
  let impl := JS.push impl "{" in
  let impl := JS.push impl "}" in
  JS.push impl "".

Definition shebang_line : string := "#!/usr/bin/env python3" ++ newline.

(** ** Entry points of the legacy variant *)

Module LegacyCommand.

(** Insert header based on file extension. *)
Definition insertHeader : Task unit :=
  do editor <- current_document ;;
  match editor with
  | None =>
      do _ <- showWarningMessage "No active editor - open a file to insert a header." ;;
      return_
  | Some doc =>
      let id := identity_of_editor doc in
      (* Ask for Author and Description *)
      do git <- env_get "GIT_AUTHOR_NAME" ;;
      do user <- env_get "USER" ;;
      let defaultAuthor := JS.orElse git (JS.orElse user EmptyString) in
      do author <- showInputBox "Author (github)" (Some "Your GitHub username or name")
                     defaultAuthor ;;
      do description <- showInputBox "Short description (shown under filename)"
                          (Some "Short description") EmptyString ;;
      do now <- new_Date ;;
      let today := formatDate now in
      let comment :=
        Legacy.makeCommentBlock (basenameWithExt id) description author (Some today) in
      let toInsert := comment in
      do toInsert <-
        (if String.eqb (extNoDot id) "c" then
           (* only comment *)
           ret toInsert
         else if String.eqb (extNoDot id) "h" then
           let defaultMacro := makeGuardMacro (basename id) "H" in
           do guard <- showInputBox "Include guard macro" None defaultMacro ;;
           let guardMacro := JS.orElse guard defaultMacro in
           ret (toInsert ++ guard_block guardMacro)
         else if String.eqb (extNoDot id) "hpp" then
           let defaultMacro := makeGuardMacro (basename id) "HPP" in
           do guard <- showInputBox "Include guard macro" None defaultMacro ;;
           let guardMacro := JS.orElse guard defaultMacro in
           let className := toClassName (basename id) in
           ret (toInsert ++ guarded_class guardMacro className)
         else if String.eqb (extNoDot id) "cpp" then
           ret (toInsert ++ JS.join newline (impl (basename id)))
         else
           do _ <- showInformationMessage
                     ("Extension " ++ extNoDot id ++ " is not supported by proHeader.") ;;
           return_) ;;
      (* Insert at top of document *)
      do _ <- insert_at_top toInsert ;;
      showInformationMessage "Pro header inserted."
  end.

End LegacyCommand.

(** ** Entry points of the current variant *)

(** The stored default author, else the environment, else nothing. *)
Definition stored_author : Task string :=
  do saved <- config_get "defaultAuthor" ;;
  do git <- env_get "GIT_AUTHOR_NAME" ;;
  do user <- env_get "USER" ;;
  ret (JS.orElse saved (JS.orElse git (JS.orElse user EmptyString))).

(** Persist author if the user entered a new one. *)
Definition persist_author (authorInput : JS.value) : Task unit :=
  try_catch
    (do saved <- config_get "defaultAuthor" ;;
     if JS.truthy authorInput && bool_decide (authorInput <> saved) then
       config_update "defaultAuthor" (JS.text_of authorInput)
     else ret tt)
    (fun _ => console_error "proheader: failed to save defaultAuthor config").

(** The additions of the non-interactive and created-file paths. *)
Definition additions (id : FileIdentity) (toInsert : string) : string :=
  if String.eqb (extNoDot id) "h" then
    let defaultMacro := makeGuardMacro (basename id) "H" in
    toInsert ++ guard_block defaultMacro
  else if String.eqb (extNoDot id) "hpp" then
    let defaultMacro := makeGuardMacro (basename id) "HPP" in
    let className := toClassName (basename id) in
    toInsert ++ guarded_class defaultMacro className
  else if String.eqb (extNoDot id) "cpp" then
    toInsert ++ JS.join newline (impl (basename id))
  else toInsert.

(** Prepend shebang for scripts that need it. *)
Definition with_shebang (detected : Detected) (toInsert : string) : string :=
  if shebang detected then shebang_line ++ toInsert else toInsert.

(** Insert header into a document without prompting. *)
Definition autoInsertHeaderForDocument : Task unit :=
  try_catch
    (do arg <- current_document ;;
     match arg with
     | None => return_
     | Some doc =>
         (* don't overwrite existing content or duplicate headers *)
         do text <- doc_getText doc ;;
         if negb (String.eqb (JS.trim text) EmptyString) then
           if hasHeaderAtTop text then return_
           else return_ (* don't overwrite non-empty files *)
         else
           let id := identity_of_created doc in
           do defaultAuthor <- stored_author ;;
           let description := EmptyString in
           do now <- new_Date ;;
           let today := formatDate now in
           let detected := detectStyle (extNoDot id) (basenameWithExt id) in
           let toInsert :=
             makeCommentBlock (basenameWithExt id) (Some description)
               (Some defaultAuthor) (Some today) (style detected) in
           let toInsert := additions id toInsert in
           let toInsert := with_shebang detected toInsert in
           insert_at_top toInsert
     end)
    (fun _ => console_error "proheader: autoInsertHeaderForDocument error").

(** Interactive insertion used when a file is created on disk. *)
Definition interactiveInsertForCreatedDocument : Task unit :=
  try_catch
    (do arg <- current_document ;;
     match arg with
     | None => return_
     | Some doc =>
         do text <- doc_getText doc ;;
         if negb (String.eqb (JS.trim text) EmptyString) then
           if hasHeaderAtTop text then return_
           else return_ (* don't overwrite non-empty files *)
         else
           let id := identity_of_created doc in
           (* Prompt for author and description (allow cancel -> use defaults) *)
           do defaultAuthor <- stored_author ;;
           do authorInput <- showInputBox "Author (github)"
                               (Some "Your GitHub username or name") defaultAuthor ;;
           let author := JS.orElse authorInput defaultAuthor in
           do description <- showInputBox "Short description (shown under filename)"
                               (Some "Short description") EmptyString ;;
           do now <- new_Date ;;
           let today := formatDate now in
           let detected := detectStyle (extNoDot id) (basenameWithExt id) in
           let toInsert :=
             makeCommentBlock (basenameWithExt id)
               (Some (JS.orElse description EmptyString))
               (Some (JS.or_str author defaultAuthor)) (Some today) (style detected) in
           let toInsert := additions id toInsert in
           let toInsert := with_shebang detected toInsert in
           do _ <- insert_at_top toInsert ;;
           (* If user entered an author and it's different from saved config, persist it *)
           persist_author authorInput
     end)
    (fun _ => console_error "proheader: interactiveInsertForCreatedDocument error").

(** Insert header based on file extension. *)
Definition insertHeader : Task unit :=
  do editor <- current_document ;;
  match editor with
  | None =>
      do _ <- showWarningMessage "No active editor - open a file to insert a header." ;;
      return_
  | Some doc =>
      let id := identity_of_editor doc in
      (* Ask for Author and Description (use saved config if available) *)
      do savedAuthor <- stored_author ;;
      do authorInput <- showInputBox "Author (github)"
                          (Some "Your GitHub username or name") savedAuthor ;;
      let author := JS.orElse authorInput savedAuthor in
      do description <- showInputBox "Short description (shown under filename)"
                          (Some "Short description") EmptyString ;;
      do now <- new_Date ;;
      let today := formatDate now in
      let detected := detectStyle (extNoDot id) (basenameWithExt id) in
      let comment :=
        makeCommentBlock (basenameWithExt id) description (Some author) (Some today)
          (style detected) in
      let toInsert := comment in
      do toInsert <-
        (if String.eqb (extNoDot id) "c" then
           (* only comment *)
           ret toInsert
         else if String.eqb (extNoDot id) "h" then
           let defaultMacro := makeGuardMacro (basename id) "H" in
           do guard <- showInputBox "Include guard macro" None defaultMacro ;;
           let guardMacro := JS.orElse guard defaultMacro in
           ret (toInsert ++ guard_block guardMacro)
         else if String.eqb (extNoDot id) "hpp" then
           let defaultMacro := makeGuardMacro (basename id) "HPP" in
           do guard <- showInputBox "Include guard macro" None defaultMacro ;;
           let guardMacro := JS.orElse guard defaultMacro in
           let className := toClassName (basename id) in
           ret (toInsert ++ guarded_class guardMacro className)
         else if String.eqb (extNoDot id) "cpp" then
           ret (toInsert ++ JS.join newline (impl (basename id)))
         else
           (* any other extension: only the comment header *)
           ret toInsert) ;;
      (* Shebang must be first *)
      let toInsert := with_shebang detected toInsert in
      (* If a header already exists at the top, do not insert and inform the user *)
      do existing <- doc_getText doc ;;
      if hasHeaderAtTop existing then
        do _ <- showInformationMessage "A header already exists in this file." ;;
        return_
      else
        (* Insert at top of document *)
        do _ <- insert_at_top toInsert ;;
        do _ <- persist_author authorInput ;;
        showInformationMessage "Pro header inserted."
  end.

(** The four entry points. *)
Inductive EntryPoint : Type :=
| LegacyInsertHeader
| InsertHeader
| AutoInsertHeader
| InteractiveInsertOnCreate.

Definition task_of (ep : EntryPoint) : Task unit :=
  match ep with
  | LegacyInsertHeader => LegacyCommand.insertHeader
  | InsertHeader => insertHeader
  | AutoInsertHeader => autoInsertHeaderForDocument
  | InteractiveInsertOnCreate => interactiveInsertForCreatedDocument
  end.

Definition invoke (ep : EntryPoint) (h : Host) : Host := run (task_of ep) h.
(** ** The handler of created files *)

(** Awaiting the call of an [async function]: its [return] ends the
    call, not the caller. *)
Definition call (t : Task unit) : Task unit :=
  fun h =>
    match t h with
    | (Returned, h') => (Normal tt, h')
    | r => r
    end.

(** [vscode.workspace.openTextDocument(uri)]: the created file becomes
    the document at hand; a file that cannot be opened ([None]) makes
    the call throw. *)
Definition openTextDocument (file : option TextDocument) : Task unit :=
  fun h =>
    match file with
    | Some d => (Normal tt, with_document (Some d) h)
    | None => (Thrown "cannot open the document", h)
    end.

(** The handler registered by [activate] with [onDidCreateFiles]: the
    created files one after the other, each through the interactive
    insertion, an exception of one of them logged and left behind. *)
Fixpoint onDidCreateFiles (files : list (option TextDocument)) : Task unit :=
  match files with
  | [] => ret tt
  | uri :: rest =>
      do _ <- try_catch
                (do _ <- openTextDocument uri ;;
                 (* Prompt the user for author/description *)
                 call interactiveInsertForCreatedDocument)
                (fun _ => console_error
                            "proheader: failed to auto-insert header for created file") ;;
      onDidCreateFiles rest
  end.


(** ** Specification-side notions *)

(** [needle] occurs in [s]. *)
Definition Contains (needle s : string) : Prop :=
  exists before after, s = before ++ needle ++ after.

(** [p] is the beginning of [s]. *)
Definition StartsWith (p s : string) : Prop :=
  exists rest, s = p ++ rest.

(** What the guard macro makes of one character. *)
Definition guard_char (c : ascii) : ascii :=
  if JS.is_alnum c then JS.upper_char c else "_"%char.

(** Every character of [s] satisfies [p]. *)
Fixpoint all_chars (p : ascii -> bool) (s : string) : bool :=
  match s with
  | EmptyString => true
  | String c s' => p c && all_chars p s'
  end.

(** [s] is empty or begins with a character outside [[a-zA-Z0-9]]. *)
Definition at_boundary (s : string) : bool :=
  match s with
  | EmptyString => true
  | String c _ => non_alnum c
  end.

(** Upper-case the first character of a segment. *)
Definition capitalize (w : string) : string :=
  match w with
  | EmptyString => EmptyString
  | String c w' => String (JS.upper_char c) w'
  end.

(** [Segments s ws]: [ws] are the non-empty maximal alphanumeric pieces
    of [s], in order, separated by runs of other characters. *)
Inductive Segments : string -> list string -> Prop :=
| Segments_end (sep : string) :
    all_chars non_alnum sep = true -> Segments sep []
| Segments_word (sep w rest : string) (ws : list string) :
    all_chars non_alnum sep = true ->
    w <> EmptyString ->
    all_chars JS.is_alnum w = true ->
    at_boundary rest = true ->
    Segments rest ws ->
    Segments (sep ++ w ++ rest) (w :: ws).

(** The segments of a string, read off in one pass. *)
Fixpoint segments_of (s : string) : list string :=
  match s with
  | EmptyString => []
  | String c s' =>
      if JS.is_alnum c then
        match s' with
        | String c' _ =>
            if JS.is_alnum c' then
              match segments_of s' with
              | w :: ws => String c w :: ws
              | [] => [String c EmptyString]
              end
            else String c EmptyString :: segments_of s'
        | EmptyString => [String c EmptyString]
        end
      else segments_of s'
  end.

(** The two borders of a comment block. *)
Definition border_top : string := JS.repeat_char "="%char 46.
Definition border_bottom : string := JS.repeat_char "="%char 45.

(** The line of an optional field: none when the value is empty or
    undefined, one line otherwise. *)
Definition optional_line (label : string) (v : JS.value) : list string :=
  match v with
  | Some (String c s) => [label ++ String c s]
  | _ => []
  end.

(** The field lines of a header, the file name behind its left pad. *)
Definition field_lines (pad filename : string) (description author date : JS.value)
  : list string :=
  app [pad ++ filename]
    (app (optional_line " " description)
       (app (optional_line " Author: " author) (optional_line " Date: " date))).

(** The lines of a block around the field lines, per style. *)
Definition frame (style : string) (fields : list string) : list string :=
  if String.eqb style "hash" then
    List.map (fun l => "# " ++ l) (app [border_top] (app fields [border_bottom]))
  else if String.eqb style "cpp" then
    List.map (fun l => "// " ++ l) (app [border_top] (app fields [border_bottom]))
  else
    app ["/**" ++ border_top]
     (app (List.map (fun l => " * " ++ l) fields) [" *" ++ border_bottom ++ "**/"]).

Definition pad16 : string := JS.repeat_char " "%char 16.
Definition pad15 : string := JS.repeat_char " "%char 15.

(** How many of the optional fields have a value. *)
Definition present (v : JS.value) : nat := if JS.truthy v then 1 else 0.

(** The language of a regular expression. *)
Inductive Matches : Regex.regex -> string -> Prop :=
| Matches_eps : Matches Regex.Eps EmptyString
| Matches_chr (c : ascii) : Matches (Regex.Chr c) (String c EmptyString)
| Matches_class (p : ascii -> bool) (c : ascii) :
    p c = true -> Matches (Regex.Class p) (String c EmptyString)
| Matches_cat (r1 r2 : Regex.regex) (s1 s2 : string) :
    Matches r1 s1 -> Matches r2 s2 -> Matches (Regex.Cat r1 r2) (s1 ++ s2)
| Matches_alt_l (r1 r2 : Regex.regex) (s : string) :
    Matches r1 s -> Matches (Regex.Alt r1 r2) s
| Matches_alt_r (r1 r2 : Regex.regex) (s : string) :
    Matches r2 s -> Matches (Regex.Alt r1 r2) s
| Matches_star_nil (r : Regex.regex) : Matches (Regex.Star r) EmptyString
| Matches_star_cons (r : Regex.regex) (s1 s2 : string) :
    Matches r s1 -> Matches (Regex.Star r) s2 -> Matches (Regex.Star r) (s1 ++ s2).

(** The header signatures, in the words of the specification, on the
    lines that are looked at. *)
Definition header_signature (text : string) : Prop :=
  Contains "/**" (first_lines 8 text)
  \/ (StartsWith "#!" (JS.trim (first_lines 8 text))
      /\ Contains "===" (first_lines 10 text))
  \/ Contains "===" (first_lines 8 text).

(** The non-empty pieces of the split of [toClassName], whatever the run flag. *)
Definition pieces (run : bool) (s : string) : list string :=
  JS.filter_nonempty (JS.split_runs non_alnum run s).

(** The tests of [hasHeaderAtTop], without the guard on the empty text. *)
Definition signature_tests (text : string) : bool :=
  Regex.test re_block_open (first_lines 8 text)
  || (Regex.test_start re_shebang (JS.trim (first_lines 8 text))
      && (Regex.test re_border (first_lines 10 text)
          || Regex.test re_hash_border (first_lines 10 text)))
  || Regex.test re_border (first_lines 8 text)
  || Regex.test_line_start re_hash_line (first_lines 8 text).

(** The texts inserted, the prompts shown and the notices given by a
    sequence of events. *)
Definition inserted_text (e : Event) : option string :=
  match e with
  | Inserted t => Some t
  | _ => None
  end.

Definition inserted_texts (evs : list Event) : list string := omap inserted_text evs.

Definition is_prompt (e : Event) : bool :=
  match e with
  | InputBox _ _ _ _ => true
  | _ => false
  end.

Definition is_notice (e : Event) : bool :=
  match e with
  | InformationMessage _ | WarningMessage _ => true
  | _ => false
  end.

(** The events of one invocation: those after the events so far. *)
Definition new_events (ep : EntryPoint) (h : Host) : list Event :=
  drop (List.length (events h)) (events (invoke ep h)).

(** The prompts for author and description, as the interactive paths show them. *)
Definition author_prompt (value : string) (answer : JS.value) : Event :=
  InputBox "Author (github)" (Some "Your GitHub username or name") value answer.

Definition description_prompt (answer : JS.value) : Event :=
  InputBox "Short description (shown under filename)" (Some "Short description")
    EmptyString answer.

(** The default author of the current variant. *)
Definition default_author (h : Host) : string :=
  JS.orElse (configuration h !! "defaultAuthor")
    (JS.orElse (environment h !! "GIT_AUTHOR_NAME")
       (JS.orElse (environment h !! "USER") EmptyString)).

(** The answer to the [n]-th coming prompt. *)
Definition answer (n : nat) (h : Host) : JS.value := mjoin (answers h !! n).

(** The identity an entry point resolves. *)
Definition identity_of (ep : EntryPoint) (d : TextDocument) : FileIdentity :=
  match ep with
  | LegacyInsertHeader | InsertHeader => identity_of_editor d
  | AutoInsertHeader | InteractiveInsertOnCreate => identity_of_created d
  end.

(** A host with one document and no history. *)
Definition host_of (file text : string) (saved : gmap string string)
  (coming : list JS.value) : Host :=
  mkHost (Some (mkDocument file file file text)) saved {[ "USER" := "dan" ]}
    (mkDate 2025 9 22) coming true [].

(** What the specification asks on a document that already has a
    header: its text is left as it is and the user is told. *)
Definition untouched_and_reported (ep : EntryPoint) (h : Host) : Prop :=
  document (invoke ep h) = document h
  /\ Exists (fun e => is_notice e = true) (new_events ep h).

(** What the specification asks of the order of the steps on such a
    document: no prompt is shown. *)
Definition no_prompt (ep : EntryPoint) (h : Host) : Prop :=
  Forall (fun e => is_prompt e = false) (new_events ep h).

(** What follows the comment block for [Game.cpp]. *)
Definition game_implementation : string :=
  "#include " ++ quote ++ "Game.hpp" ++ quote ++ newline
  ++ newline
  ++ "Game::Game()" ++ newline
  ++ "{" ++ newline
  ++ "}" ++ newline
  ++ newline
  ++ "Game::~Game()" ++ newline
  ++ "{" ++ newline
  ++ "}" ++ newline.

(** What the specification asks for [Game.cpp]: the generated text
    starts with the include line. *)
Definition starts_with_include (t : string) : Prop :=
  StartsWith ("#include " ++ quote ++ "Game.hpp" ++ quote) t.

(** A document that begins with the top border of a header. *)
Definition bordered : string := "/**" ++ border_top ++ newline ++ "int main;".

(** The notice of the command on a document that has a header. *)
Definition header_exists_notice : Event :=
  InformationMessage "A header already exists in this file.".

(** ** Notions for the further properties *)

(** The number a string of decimal digits denotes; [None] when a
    character is no digit. *)
Fixpoint decimal_go (acc : nat) (s : string) : option nat :=
  match s with
  | EmptyString => Some acc
  | String c s' =>
      if JS.is_digit c then decimal_go (10 * acc + (JS.code c - 48)) s' else None
  end.

Definition decimal (s : string) : option nat :=
  match s with
  | EmptyString => None
  | _ => decimal_go 0 s
  end.

(** A date of the calendar with a year of four digits. *)
Definition plain_date (d : Date) : Prop :=
  (1000 <= getFullYear d <= 9999)%Z /\ getMonth d <= 11 /\ 1 <= getDate d <= 31.

(** [YYYY-MM-DD] read back: year, month (1 for January) and day. *)
Definition read_date (s : string) : option (nat * nat * nat) :=
  match decimal (String.substring 0 4 s), String.get 4 s,
        decimal (String.substring 5 2 s), String.get 7 s,
        decimal (String.substring 8 2 s) with
  | Some y, Some "-"%char, Some m, Some "-"%char, Some d =>
      if (String.length s =? 10)%nat then Some (y, m, d) else None
  | _, _, _, _, _ => None
  end.

(** The characters of a guard macro. *)
Definition macro_char (c : ascii) : bool :=
  JS.is_upper c || JS.is_digit c || Ascii.eqb c "_"%char.

(** The year of a date as [String] prints it, and the years of four digits. *)
Definition year_string (y : Z) : string := NilEmpty.string_of_int (Z.to_int y).

Fixpoint years_from (y : Z) (n : nat) : list Z :=
  match n with
  | O => []
  | S n' => y :: years_from (y + 1) n'
  end.

Definition four_digit_years : list Z := years_from 1000 (Z.to_nat 9000).

(** No line feed in [s]: it is one line. *)
Definition one_line (s : string) : bool :=
  all_chars (fun c => negb (Ascii.eqb c "010"%char)) s.

(** Whether an entry point inserts into the document [d]: the legacy
    command for its four extensions, the current command unless a
    header is found, the insertions on creation into a blank document. *)
Definition inserts (ep : EntryPoint) (d : TextDocument) : bool :=
  match ep with
  | LegacyInsertHeader =>
      let e := extNoDot (identity_of_editor d) in
      String.eqb e "c" || String.eqb e "h" || String.eqb e "hpp" || String.eqb e "cpp"
  | InsertHeader => negb (hasHeaderAtTop (getText d))
  | AutoInsertHeader | InteractiveInsertOnCreate =>
      String.eqb (JS.trim (getText d)) EmptyString
  end.

(** The notices of the two commands. *)
Definition no_editor_warning : Event :=
  WarningMessage "No active editor - open a file to insert a header.".

Definition inserted_notice : Event := InformationMessage "Pro header inserted.".

Definition unsupported_notice (e : string) : Event :=
  InformationMessage ("Extension " ++ e ++ " is not supported by proHeader.").

Definition is_command (ep : EntryPoint) : bool :=
  match ep with
  | LegacyInsertHeader | InsertHeader => true
  | _ => false
  end.

(** The default author of the legacy command: the environment only. *)
Definition environment_author (h : Host) : string :=
  JS.orElse (environment h !! "GIT_AUTHOR_NAME")
    (JS.orElse (environment h !! "USER") EmptyString).

(** Whether the commands ask for the guard macro. *)
Definition guard_asked (d : TextDocument) : bool :=
  String.eqb (extNoDot (identity_of_editor d)) "h"
  || String.eqb (extNoDot (identity_of_editor d)) "hpp".

(** How many prompts an entry point shows for the document [d]. *)
Definition prompts_shown (ep : EntryPoint) (d : TextDocument) : nat :=
  match ep with
  | LegacyInsertHeader | InsertHeader => if guard_asked d then 3 else 2
  | AutoInsertHeader => 0
  | InteractiveInsertOnCreate =>
      if String.eqb (JS.trim (getText d)) EmptyString then 2 else 0
  end.

Definition count_prompts (evs : list Event) : nat :=
  List.length (List.filter is_prompt evs).

(** The last notice of a command. *)
Definition closing_notice (ep : EntryPoint) (d : TextDocument) : Event :=
  if inserts ep d then inserted_notice
  else match ep with
       | LegacyInsertHeader => unsupported_notice (extNoDot (identity_of_editor d))
       | _ => header_exists_notice
       end.

Definition save_failed : Event :=
  ConsoleError "proheader: failed to save defaultAuthor config".

(** The beginning of a generated text, by what [detectStyle] answers. *)
Definition opening (det : Detected) : string :=
  (if shebang det then shebang_line else EmptyString)
  ++ (if String.eqb (style det) "hash" then "# " else "/**")
  ++ border_top ++ newline.



(** The style an entry point renders the comment block in. *)
Definition detected_by (ep : EntryPoint) (d : TextDocument) : Detected :=
  match ep with
  | LegacyInsertHeader => mkDetected "block" false
  | _ => detectStyle (extNoDot (identity_of ep d)) (basenameWithExt (identity_of ep d))
  end.

(** The description and the author an entry point puts into the
    comment block, and the block itself. *)
Definition header_description (ep : EntryPoint) (h : Host) : JS.value :=
  match ep with
  | LegacyInsertHeader | InsertHeader => answer 1 h
  | AutoInsertHeader => Some EmptyString
  | InteractiveInsertOnCreate => Some (JS.orElse (answer 1 h) EmptyString)
  end.

Definition header_author (ep : EntryPoint) (h : Host) : JS.value :=
  match ep with
  | LegacyInsertHeader => answer 0 h
  | InsertHeader | InteractiveInsertOnCreate =>
      Some (JS.orElse (answer 0 h) (default_author h))
  | AutoInsertHeader => Some (default_author h)
  end.

Definition header_block (ep : EntryPoint) (h : Host) (d : TextDocument) : string :=
  let name := basenameWithExt (identity_of ep d) in
  let today := Some (formatDate (clock h)) in
  match ep with
  | LegacyInsertHeader =>
      Legacy.makeCommentBlock name (header_description ep h) (header_author ep h) today
  | _ =>
      makeCommentBlock name (header_description ep h) (header_author ep h) today
        (style (detected_by ep d))
  end.

(** The created files that are blank documents, and those that cannot
    be opened. *)
Definition is_blank_file (file : option TextDocument) : bool :=
  match file with
  | Some d => String.eqb (JS.trim (getText d)) EmptyString
  | None => false
  end.

Definition is_unopened (file : option TextDocument) : bool :=
  match file with
  | Some _ => false
  | None => true
  end.

Definition blank_files (files : list (option TextDocument)) : nat :=
  List.length (List.filter is_blank_file files).

Definition unopened_files (files : list (option TextDocument)) : nat :=
  List.length (List.filter is_unopened files).

Definition is_open_failure (e : Event) : bool :=
  match e with
  | ConsoleError m =>
      String.eqb m "proheader: failed to auto-insert header for created file"
  | _ => false
  end.

Definition open_failures (evs : list Event) : nat :=
  List.length (List.filter is_open_failure evs).

(** * The model on the inputs of the documentation *)

Example formatDate_october : formatDate (mkDate 2025 9 22) = "2025-10-22".
Proof. reflexivity. Qed.

Example formatDate_padded : formatDate (mkDate 2025 0 3) = "2025-01-03".
Proof. reflexivity. Qed.

Example identity_of_Game_cpp :
  identity_of_editor (mkDocument "/home/dev/Game.cpp" EmptyString EmptyString EmptyString)
  = mkIdentity ".cpp" "Game.cpp" "Game" "cpp".
Proof. reflexivity. Qed.

Example identity_of_Makefile :
  identity_of_created (mkDocument "/home/dev/Makefile" EmptyString EmptyString EmptyString)
  = mkIdentity EmptyString "Makefile" "Makefile" EmptyString.
Proof. reflexivity. Qed.

Example detectStyle_Makefile : detectStyle EmptyString "Makefile" = mkDetected "hash" false.
Proof. reflexivity. Qed.

Example detectStyle_c : detectStyle "c" "keyboard.c" = mkDetected "block" false.
Proof. reflexivity. Qed.

(** The header of [keyboard.c] shown in the documentation. *)
Example keyboard_c_header :
  Legacy.makeCommentBlock "keyboard.c" (Some "Keyboard driver implementation")
    (Some "DaniilSte") (Some "2025-10-22")
  = JS.join newline
      [ "/**==============================================";
        " *                keyboard.c";
        " *  Keyboard driver implementation";
        " *  Author: DaniilSte";
        " *  Date: 2025-10-22";
        " *=============================================**/";
        EmptyString; EmptyString ].
Proof. reflexivity. Qed.

(** The guard and class skeleton of [Game.hpp]. *)
Example Game_hpp_class :
  guarded_class (makeGuardMacro "Game" "HPP") (toClassName "Game")
  = JS.join newline
      [ "#ifndef GAME_HPP_";
        "#define GAME_HPP_";
        EmptyString;
        "class Game {";
        "    public:";
        "        Game();";
        "        ~Game();";
        EmptyString;
        "    protected:";
        "    private:";
        "};";
        EmptyString;
        "#endif /* !GAME_HPP_ */";
        EmptyString ].
Proof. reflexivity. Qed.

(** * Facts about strings *)

Section StringFacts.

Lemma append_nil_r (s : string) : s ++ "" = s.
Proof. induction s as [|c s IH]; simpl; [reflexivity | now rewrite IH]. Qed.

Lemma append_assoc (a b c : string) : (a ++ b) ++ c = a ++ (b ++ c).
Proof. induction a as [|x a IH]; simpl; [reflexivity | now rewrite IH]. Qed.

Lemma length_append (a b : string) :
  String.length (a ++ b) = String.length a + String.length b.
Proof. induction a as [|x a IH]; simpl; [reflexivity | now rewrite IH]. Qed.

Lemma map_chars_append (f : ascii -> ascii) (a b : string) :
  JS.map_chars f (a ++ b) = JS.map_chars f a ++ JS.map_chars f b.
Proof. induction a as [|x a IH]; simpl; [reflexivity | now rewrite IH]. Qed.

Lemma map_chars_length (f : ascii -> ascii) (s : string) :
  String.length (JS.map_chars f s) = String.length s.
Proof. induction s as [|x s IH]; simpl; [reflexivity | now rewrite IH]. Qed.

Lemma map_chars_compose (f g : ascii -> ascii) (s : string) :
  JS.map_chars f (JS.map_chars g s) = JS.map_chars (fun c => f (g c)) s.
Proof. induction s as [|x s IH]; simpl; [reflexivity | now rewrite IH]. Qed.

Lemma map_chars_ext (f g : ascii -> ascii) (s : string) :
  (forall c, f c = g c) -> JS.map_chars f s = JS.map_chars g s.
Proof. intros E. induction s as [|x s IH]; simpl; [reflexivity | now rewrite E, IH]. Qed.

Lemma map_chars_get (f : ascii -> ascii) (s : string) (i : nat) :
  String.get i (JS.map_chars f s) = f <$> String.get i s.
Proof.
  revert i. induction s as [|x s IH]; intros [|i]; simpl; try reflexivity.
  apply IH.
Qed.

Lemma get_append_l (a b : string) (i : nat) (c : ascii) :
  String.get i a = Some c -> String.get i (a ++ b) = Some c.
Proof.
  revert i. induction a as [|x a IH]; intros [|i]; simpl; try discriminate; auto.
Qed.

Lemma get_append_length (a b : string) :
  String.get (String.length a) (a ++ b) = String.get 0 b.
Proof. induction a as [|x a IH]; simpl; [reflexivity | exact IH]. Qed.

End StringFacts.

(** * The guard macro *)

Lemma upper_of_non_lower (c : ascii) : JS.is_lower c = false -> JS.upper_char c = c.
Proof. unfold JS.upper_char. now intros ->. Qed.

Lemma guard_char_spec (c : ascii) :
  JS.upper_char (if non_alnum c then "_"%char else c) = guard_char c.
Proof.
  unfold guard_char, non_alnum. destruct (JS.is_alnum c); simpl; reflexivity.
Qed.

Lemma makeGuardMacro_chars (b t : string) :
  makeGuardMacro b t = JS.map_chars guard_char (b ++ "_" ++ t) ++ "_".
Proof.
  unfold makeGuardMacro, JS.toUpperCase, JS.replace_class.
  rewrite map_chars_compose. f_equal. apply map_chars_ext, guard_char_spec.
Qed.

Lemma digit_is_alnum (c : ascii) : JS.is_digit c = true -> JS.is_alnum c = true.
Proof. unfold JS.is_alnum. intros ->. now rewrite !orb_true_r. Qed.

Lemma digit_not_lower (c : ascii) : JS.is_digit c = true -> JS.is_lower c = false.
Proof.
  unfold JS.is_digit, JS.is_lower, JS.between.
  intros H. apply andb_true_iff in H as [_ H]. apply Nat.leb_le in H.
  apply andb_false_iff. left. apply Nat.leb_gt. lia.
Qed.

(** C6: [makeGuardMacro] is a total function whose result is, character
    by character, the input [baseName_tag] with every character outside
    [A-Za-z0-9] replaced by [_] and every other one upper-cased,
    followed by one more [_]; a leading digit stays in front; the two
    documented examples hold. *)
Theorem C6_makeGuardMacro_spec :
  (forall b t : string,
     makeGuardMacro b t = JS.map_chars guard_char (b ++ "_" ++ t) ++ "_"
     /\ String.length (makeGuardMacro b t) = String.length b + String.length t + 2
     /\ (forall i c, String.get i (b ++ "_" ++ t) = Some c ->
           String.get i (makeGuardMacro b t)
           = Some (if JS.is_alnum c then JS.upper_char c else "_"%char))
     /\ String.get (String.length b + String.length t + 1) (makeGuardMacro b t)
        = Some "_"%char)
  /\ (forall (d : ascii) (b t : string),
        JS.is_digit d = true ->
        exists rest, makeGuardMacro (String d b) t = String d rest)
  /\ makeGuardMacro "game" "H" = "GAME_H_"
  /\ makeGuardMacro "my-file" "HPP" = "MY_FILE_HPP_".
Proof.
  split; [|split; [|split; reflexivity]].
  - intros b t. rewrite makeGuardMacro_chars. repeat split.
    + rewrite length_append, map_chars_length, !length_append. simpl. lia.
    + intros i c Hi. apply get_append_l. rewrite map_chars_get, Hi. reflexivity.
    + replace (String.length b + String.length t + 1)
        with (String.length (JS.map_chars guard_char (b ++ "_" ++ t))).
      * now rewrite get_append_length.
      * rewrite map_chars_length, !length_append. simpl. lia.
  - intros d b t Hd. rewrite makeGuardMacro_chars. simpl.
    unfold guard_char at 1. rewrite (digit_is_alnum _ Hd).
    rewrite (upper_of_non_lower _ (digit_not_lower _ Hd)). eauto.
Qed.

Lemma C6_makeGuardMacro_witness :
  exists rest, makeGuardMacro "9lives" "H" = String "9"%char rest.
Proof.
  exact (proj1 (proj2 C6_makeGuardMacro_spec) "9"%char "lives" "H" eq_refl).
Defined.

(** * The class name *)

Section ClassName.

Lemma split_runs_nonnil (run : bool) (s : string) : JS.split_runs non_alnum run s <> [].
Proof.
  revert run. induction s as [|c s IH]; intros run; simpl; [discriminate|].
  destruct (non_alnum c).
  - destruct run; [apply IH | discriminate].
  - destruct (JS.split_runs non_alnum false s); discriminate.
Qed.

Lemma pieces_flag (run : bool) (s : string) : pieces run s = pieces false s.
Proof.
  destruct run; [|reflexivity].
  destruct s as [|c s]; [reflexivity|].
  unfold pieces. simpl. destruct (non_alnum c); reflexivity.
Qed.

Lemma pieces_sep (c : ascii) (s : string) :
  non_alnum c = true -> pieces false (String c s) = pieces false s.
Proof.
  intros Hc. unfold pieces at 1. simpl. rewrite Hc. simpl.
  apply (pieces_flag true).
Qed.

Lemma pieces_seps (sep s : string) :
  all_chars non_alnum sep = true -> pieces false (sep ++ s) = pieces false s.
Proof.
  induction sep as [|c sep IH]; simpl; [reflexivity|].
  intros H. apply andb_true_iff in H as [Hc Hs].
  rewrite pieces_sep by exact Hc. auto.
Qed.

Lemma pieces_only_seps (sep : string) :
  all_chars non_alnum sep = true -> pieces false sep = [].
Proof.
  intros H. rewrite <- (append_nil_r sep). rewrite pieces_seps by exact H. reflexivity.
Qed.

Lemma alnum_not_sep (c : ascii) : JS.is_alnum c = true -> non_alnum c = false.
Proof. unfold non_alnum. now intros ->. Qed.

(** The split of a string that starts a segment: the segment comes first. *)
Lemma split_runs_word (w rest : string) :
  w <> EmptyString ->
  all_chars JS.is_alnum w = true ->
  at_boundary rest = true ->
  exists tl, JS.split_runs non_alnum false (w ++ rest) = w :: tl
             /\ JS.filter_nonempty tl = pieces false rest.
Proof.
  induction w as [|c w IH]; [congruence|].
  intros _ Hall Hb. simpl in Hall. apply andb_true_iff in Hall as [Hc Hw].
  simpl. rewrite (alnum_not_sep _ Hc).
  destruct w as [|c' w].
  - simpl. destruct rest as [|r rest].
    + simpl. exists []. split; reflexivity.
    + simpl in Hb. simpl. rewrite Hb. eexists. split; [reflexivity|].
      change (pieces true rest = pieces false (String r rest)).
      rewrite pieces_flag, pieces_sep by exact Hb. reflexivity.
  - destruct (IH ltac:(discriminate) Hw Hb) as (tl & -> & Htl).
    exists tl. split; [reflexivity | exact Htl].
Qed.

Lemma pieces_word (w rest : string) :
  w <> EmptyString ->
  all_chars JS.is_alnum w = true ->
  at_boundary rest = true ->
  pieces false (w ++ rest) = w :: pieces false rest.
Proof.
  intros Hne Hall Hb.
  destruct (split_runs_word w rest Hne Hall Hb) as (tl & E & Htl).
  unfold pieces at 1. rewrite E. simpl.
  destruct w; [congruence|]. simpl. now rewrite Htl.
Qed.

Lemma pieces_Segments (s : string) (ws : list string) :
  Segments s ws -> pieces false s = ws.
Proof.
  induction 1 as [sep Hsep | sep w rest ws Hsep Hne Hw Hb _ IH].
  - now apply pieces_only_seps.
  - rewrite pieces_seps by exact Hsep.
    rewrite pieces_word by assumption. now rewrite IH.
Qed.

Lemma capitalize_js (w : string) :
  JS.toUpperCase (JS.charAt0 w) ++ JS.slice1 w = capitalize w.
Proof. destruct w; reflexivity. Qed.

Lemma toClassName_pieces (s : string) :
  toClassName s = JS.join EmptyString (List.map capitalize (pieces false s)).
Proof.
  unfold toClassName, pieces. f_equal. apply List.map_ext, capitalize_js.
Qed.

(** Every string has its segments. *)
Lemma segments_of_nonempty (s : string) :
  Forall (fun w => w <> EmptyString) (segments_of s).
Proof.
  induction s as [|c s IH]; simpl; [constructor|].
  destruct (JS.is_alnum c); [|exact IH].
  destruct s as [|c' s]; [repeat constructor; discriminate|].
  destruct (JS.is_alnum c').
  - destruct (segments_of (String c' s)) as [|w ws].
    + repeat constructor; discriminate.
    + inversion IH; subst. constructor; [discriminate | assumption].
  - constructor; [discriminate | exact IH].
Qed.

Lemma Segments_sep (c : ascii) (s : string) (ws : list string) :
  non_alnum c = true -> Segments s ws -> Segments (String c s) ws.
Proof.
  intros Hc H. destruct H as [sep Hsep | sep w rest ws Hsep Hne Hw Hb H].
  - constructor. simpl. now rewrite Hc, Hsep.
  - change (Segments (String c sep ++ w ++ rest) (w :: ws)).
    constructor; try assumption. simpl. now rewrite Hc, Hsep.
Qed.

Lemma Segments_total (s : string) : Segments s (segments_of s).
Proof.
  induction s as [|c s IH]; simpl.
  - now constructor.
  - destruct (JS.is_alnum c) eqn:Hc.
    + destruct s as [|c' s].
      * apply (Segments_word "" (String c "") "" []); simpl;
          try rewrite Hc; try reflexivity; try discriminate.
        now constructor.
      * destruct (JS.is_alnum c') eqn:Hc'.
        -- remember (String c' s) as s1 eqn:Es1.
           destruct IH as [sep Hsep | sep w rest ws Hsep Hne Hw Hb H].
           ++ subst sep. simpl in Hsep. unfold non_alnum in Hsep.
              rewrite Hc' in Hsep. discriminate.
           ++ destruct sep as [|x sep].
              ** simpl in Es1. simpl.
                 apply (Segments_word "" (String c w) rest ws); simpl;
                   try rewrite Hc; try assumption; try reflexivity; discriminate.
              ** simpl in Es1. injection Es1 as -> _. simpl in Hsep.
                 unfold non_alnum in Hsep. rewrite Hc' in Hsep. discriminate.
        -- apply (Segments_word "" (String c "") (String c' s) _); simpl;
             try rewrite Hc; try reflexivity; try discriminate; [|exact IH].
           unfold non_alnum. now rewrite Hc'.
    + apply Segments_sep; [|exact IH]. unfold non_alnum. now rewrite Hc.
Qed.

End ClassName.

(** C7: for every input, and for its segmentation into the non-empty
    maximal alphanumeric pieces between runs of other characters,
    [toClassName] is the concatenation of the pieces with their first
    character upper-cased; every input has such a segmentation; the
    empty string gives the empty string, ["game"] gives ["Game"] and
    ["my_game-v2"] gives ["MyGameV2"]. *)
Theorem C7_toClassName_spec :
  (forall (s : string) (ws : list string),
     Segments s ws ->
     toClassName s = JS.join EmptyString (List.map capitalize ws))
  /\ (forall s : string, Segments s (segments_of s))
  /\ toClassName "" = ""
  /\ toClassName "game" = "Game"
  /\ toClassName "my_game-v2" = "MyGameV2".
Proof.
  split; [|split; [|repeat split]].
  - intros s ws H. rewrite toClassName_pieces. now rewrite (pieces_Segments s ws H).
  - apply Segments_total.
Qed.

Lemma C7_toClassName_witness :
  toClassName "my_game-v2" = JS.join EmptyString (List.map capitalize ["my"; "game"; "v2"]).
Proof.
  apply (proj1 C7_toClassName_spec).
  apply (Segments_word "" "my" "_game-v2"); try reflexivity; try discriminate.
  apply (Segments_word "_" "game" "-v2"); try reflexivity; try discriminate.
  apply (Segments_word "-" "v2" ""); try reflexivity; try discriminate.
  now apply Segments_end.
Defined.

(** * The comment block *)

Section CommentBlock.

Lemma Contains_refl (s : string) : Contains s s.
Proof. exists "", "". simpl. now rewrite append_nil_r. Qed.

Lemma Contains_append_l (needle a b : string) : Contains needle a -> Contains needle (a ++ b).
Proof.
  intros (x & y & ->). exists x, (y ++ b). now rewrite !append_assoc.
Qed.

Lemma Contains_append_r (needle a b : string) : Contains needle b -> Contains needle (a ++ b).
Proof.
  intros (x & y & ->). exists (a ++ x), y. now rewrite !append_assoc.
Qed.

Lemma Contains_join (needle sep : string) (l : list string) (x : string) :
  In x l -> Contains needle x -> Contains needle (JS.join sep l).
Proof.
  induction l as [|y l IH]; [contradiction|].
  intros [->|Hin] Hc.
  - destruct l; simpl; [exact Hc | now apply Contains_append_l].
  - destruct l as [|z l]; [contradiction|].
    change (Contains needle (y ++ sep ++ JS.join sep (z :: l))).
    apply Contains_append_r, Contains_append_r. now apply IH.
Qed.

Lemma makeCommentBlock_frame (f : string) (d a dt : JS.value) (style : string) :
  makeCommentBlock f d a dt style
  = JS.join newline (frame style (field_lines pad16 f d a dt)) ++ newline ++ newline.
Proof.
  unfold makeCommentBlock, frame.
  destruct (String.eqb_spec style "block") as [->|Hb]; simpl.
  - destruct d as [[|? ?]|], a as [[|? ?]|], dt as [[|? ?]|]; reflexivity.
  - destruct (String.eqb style "hash"), (String.eqb style "cpp"); simpl;
      destruct d as [[|? ?]|], a as [[|? ?]|], dt as [[|? ?]|]; reflexivity.
Qed.

Lemma legacy_makeCommentBlock_frame (f : string) (d a dt : JS.value) :
  Legacy.makeCommentBlock f d a dt
  = JS.join newline (frame "block" (field_lines pad15 f d a dt)) ++ newline ++ newline.
Proof.
  unfold Legacy.makeCommentBlock, frame. simpl.
  destruct d as [[|? ?]|], a as [[|? ?]|], dt as [[|? ?]|]; reflexivity.
Qed.

Lemma frame_contains (style pad f : string) (d a dt : JS.value) :
  Contains f (JS.join newline (frame style (field_lines pad f d a dt))).
Proof.
  assert (Hf : forall p, Contains f (p ++ pad ++ f)).
  { intros p. apply Contains_append_r, Contains_append_r, Contains_refl. }
  unfold frame.
  destruct (String.eqb style "hash"); [|destruct (String.eqb style "cpp")].
  - apply (Contains_join _ _ _ ("# " ++ pad ++ f)); [|apply Hf].
    simpl. right. left. reflexivity.
  - apply (Contains_join _ _ _ ("// " ++ pad ++ f)); [|apply Hf].
    simpl. right. left. reflexivity.
  - apply (Contains_join _ _ _ (" * " ++ pad ++ f)); [|apply Hf].
    simpl. right. left. reflexivity.
Qed.

Lemma field_lines_length (pad f : string) (d a dt : JS.value) :
  List.length (field_lines pad f d a dt) = 1 + present d + present a + present dt.
Proof.
  destruct d as [[|? ?]|], a as [[|? ?]|], dt as [[|? ?]|]; reflexivity.
Qed.

End CommentBlock.

(** C4: in block style the comment block is, for every file name,
    description, author and date: the opening line [/**] and 46 [=];
    the field lines, each behind [" * "]; the closing line [" *"], 45
    [=] and [**/]; and a blank line.  Both variants agree on it. *)
Theorem C4_block_border_fixed :
  forall (f : string) (d a dt : JS.value),
    makeCommentBlock f d a dt "block"
    = JS.join newline
        (app ["/**" ++ JS.repeat_char "="%char 46]
          (app (List.map (fun l => " * " ++ l) (field_lines pad16 f d a dt))
             [" *" ++ JS.repeat_char "="%char 45 ++ "**/"]))
      ++ newline ++ newline
    /\ Legacy.makeCommentBlock f d a dt
       = JS.join newline
           (app ["/**" ++ JS.repeat_char "="%char 46]
             (app (List.map (fun l => " * " ++ l) (field_lines pad15 f d a dt))
                [" *" ++ JS.repeat_char "="%char 45 ++ "**/"]))
         ++ newline ++ newline.
Proof.
  intros f d a dt. split.
  - apply makeCommentBlock_frame.
  - apply legacy_makeCommentBlock_frame.
Qed.

(** C5: for every file name, description, author, date and style the
    comment block is the frame of the style around the field lines: the
    file name, then one line for each of description, author and date
    that has a non-empty value and none for an empty or undefined one;
    the file name occurs in the block. *)
Theorem C5_fields_omitted_when_empty :
  forall (f : string) (d a dt : JS.value) (style : string),
    makeCommentBlock f d a dt style
    = JS.join newline (frame style (field_lines pad16 f d a dt)) ++ newline ++ newline
    /\ Legacy.makeCommentBlock f d a dt
       = JS.join newline (frame "block" (field_lines pad15 f d a dt)) ++ newline ++ newline
    /\ Contains f (makeCommentBlock f d a dt style)
    /\ Contains f (Legacy.makeCommentBlock f d a dt)
    /\ (forall pad,
          field_lines pad f d a dt
          = app [pad ++ f]
              (app (if JS.truthy d then [" " ++ JS.text_of d] else [])
                 (app (if JS.truthy a then [" Author: " ++ JS.text_of a] else [])
                      (if JS.truthy dt then [" Date: " ++ JS.text_of dt] else [])))
          /\ List.length (field_lines pad f d a dt)
             = 1 + present d + present a + present dt).
Proof.
  intros f d a dt style0.
  split; [apply makeCommentBlock_frame|].
  split; [apply legacy_makeCommentBlock_frame|].
  split; [rewrite makeCommentBlock_frame; apply Contains_append_l, frame_contains|].
  split; [rewrite legacy_makeCommentBlock_frame; apply Contains_append_l, frame_contains|].
  intros pad. split; [|apply field_lines_length].
  destruct d as [[|? ?]|], a as [[|? ?]|], dt as [[|? ?]|]; reflexivity.
Qed.

(** * Regular expressions: the matcher decides the language *)

Section RegexFacts.

Import Regex.

Lemma append_eq_nil (a b : string) : a ++ b = "" -> a = "" /\ b = "".
Proof. destruct a; simpl; [auto | discriminate]. Qed.

Lemma Matches_cat_inv (r1 r2 : regex) (s : string) :
  Matches (Cat r1 r2) s ->
  exists s1 s2, s = s1 ++ s2 /\ Matches r1 s1 /\ Matches r2 s2.
Proof. intros H. inversion H; subst. eauto. Qed.

Lemma Matches_chr_inv (c : ascii) (s : string) :
  Matches (Chr c) s -> s = String c "".
Proof. intros H. now inversion H. Qed.

Lemma nullable_Matches (r : regex) : nullable r = true <-> Matches r "".
Proof.
  induction r as [| | c | p | r1 IH1 r2 IH2 | r1 IH1 r2 IH2 | r IH]; simpl.
  - split; [discriminate | intros H; inversion H].
  - split; [constructor | reflexivity].
  - split; [discriminate | intros H; inversion H].
  - split; [discriminate | intros H; inversion H].
  - rewrite andb_true_iff, IH1, IH2. split.
    + intros [H1 H2]. apply (Matches_cat r1 r2 "" "" H1 H2).
    + intros H. apply Matches_cat_inv in H as (s1 & s2 & E & H1 & H2).
      symmetry in E. apply append_eq_nil in E as [-> ->]. auto.
  - rewrite orb_true_iff, IH1, IH2. split.
    + intros [H|H]; [now apply Matches_alt_l | now apply Matches_alt_r].
    + intros H. inversion H; subst; auto.
  - split; [constructor | reflexivity].
Qed.

(** A non-empty match of a star starts with a non-empty match of its body. *)
Lemma Matches_star_head (r : regex) (s : string) :
  Matches (Star r) s ->
  forall c s', s = String c s' ->
  exists s1 s2, s' = s1 ++ s2 /\ Matches r (String c s1) /\ Matches (Star r) s2.
Proof.
  intros H. remember (Star r) as r0 eqn:E.
  induction H as [| | | | | | r' | r' s1 s2 H1 _ H2 IH2];
    try discriminate E; intros c s' Hs; [discriminate Hs|].
  injection E as ->.
  destruct s1 as [|c1 s1]; simpl in Hs.
  - apply IH2; auto.
  - injection Hs as -> <-. exists s1, s2. auto.
Qed.

Lemma deriv_Matches (r : regex) (c : ascii) (s : string) :
  Matches (deriv c r) s <-> Matches r (String c s).
Proof.
  revert s.
  induction r as [| | d | p | r1 IH1 r2 IH2 | r1 IH1 r2 IH2 | r IH]; intros s; simpl.
  - split; intros H; inversion H.
  - split; intros H; inversion H.
  - destruct (Ascii.eqb_spec c d) as [->|Hne].
    + split; intros H; inversion H; subst; constructor.
    + split; intros H; inversion H; subst; congruence.
  - destruct (p c) eqn:Hp.
    + split; intros H; inversion H; subst; now constructor.
    + split; intros H; inversion H; subst; congruence.
  - assert (Hl : forall s, Matches (Cat (deriv c r1) r2) s -> Matches (Cat r1 r2) (String c s)).
    { intros s0 H. apply Matches_cat_inv in H as (s1 & s2 & -> & H1 & H2).
      apply IH1 in H1. apply (Matches_cat r1 r2 (String c s1) s2 H1 H2). }
    assert (Hr : forall s, Matches (Cat r1 r2) (String c s) ->
               Matches (Cat (deriv c r1) r2) s
               \/ (Matches r1 "" /\ Matches r2 (String c s))).
    { intros s0 H. apply Matches_cat_inv in H as (s1 & s2 & E & H1 & H2).
      destruct s1 as [|c1 s1]; simpl in E.
      - right. subst. auto.
      - injection E as <- ->. left. constructor; [now apply IH1 | assumption]. }
    destruct (nullable r1) eqn:Hn.
    + split.
      * intros H. inversion H; subst; [now apply Hl|].
        apply nullable_Matches in Hn.
        apply (Matches_cat r1 r2 "" (String c s) Hn). now apply IH2.
      * intros H. destruct (Hr _ H) as [H1|[_ H2]].
        -- now apply Matches_alt_l.
        -- apply Matches_alt_r. now apply IH2.
    + split; [apply Hl|].
      intros H. destruct (Hr _ H) as [H1|[H0 _]]; [assumption|].
      apply nullable_Matches in H0. congruence.
  - split.
    + intros H. inversion H; subst.
      * apply Matches_alt_l. now apply IH1.
      * apply Matches_alt_r. now apply IH2.
    + intros H. inversion H; subst.
      * apply Matches_alt_l. now apply IH1.
      * apply Matches_alt_r. now apply IH2.
  - split.
    + intros H. apply Matches_cat_inv in H as (s1 & s2 & -> & H1 & H2).
      apply IH in H1. apply (Matches_star_cons r (String c s1) s2 H1 H2).
    + intros H. destruct (Matches_star_head r _ H c s eq_refl) as (s1 & s2 & -> & H1 & H2).
      constructor; [now apply IH | assumption].
Qed.

Lemma match_here_spec (r : regex) (s : string) :
  match_here r s = true <-> exists p q, s = p ++ q /\ Matches r p.
Proof.
  revert r. induction s as [|c s IH]; intros r; simpl.
  - rewrite orb_false_r, nullable_Matches. split.
    + intros H. exists "", "". auto.
    + intros (p & q & E & H). symmetry in E. apply append_eq_nil in E as [-> _]. exact H.
  - rewrite orb_true_iff, nullable_Matches, IH. split.
    + intros [H|(p & q & -> & H)].
      * exists "", (String c s). auto.
      * exists (String c p), q. split; [reflexivity | now apply deriv_Matches].
    + intros (p & q & E & H). destruct p as [|c' p]; [now left|].
      simpl in E. injection E as <- ->. right. exists p, q.
      split; [reflexivity | now apply deriv_Matches].
Qed.

Lemma test_spec (r : regex) (s : string) :
  test r s = true <-> exists a p q, s = a ++ p ++ q /\ Matches r p.
Proof.
  induction s as [|c s IH].
  - change (test r "") with (match_here r "" || false).
    rewrite orb_false_r, match_here_spec. split.
    + intros (p & q & E & H). exists "", p, q. auto.
    + intros (a & p & q & E & H). symmetry in E.
      apply append_eq_nil in E as [_ E]. apply append_eq_nil in E as [-> ->].
      exists "", "". auto.
  - change (test r (String c s)) with (match_here r (String c s) || test r s).
    rewrite orb_true_iff, IH, match_here_spec. split.
    + intros [(p & q & E & H)|(a & p & q & -> & H)].
      * exists "", p, q. auto.
      * exists (String c a), p, q. auto.
    + intros (a & p & q & E & H). destruct a as [|c' a].
      * left. exists p, q. auto.
      * simpl in E. injection E as <- ->. right. exists a, p, q. auto.
Qed.

Lemma test_after_sound (r : regex) (s : string) :
  test_after r s = true -> exists a p q, s = a ++ p ++ q /\ Matches r p.
Proof.
  induction s as [|c s IH]; simpl; [discriminate|].
  rewrite orb_true_iff, andb_true_iff. intros [[_ H]|H].
  - apply match_here_spec in H as (p & q & -> & H).
    exists (String c ""), p, q. auto.
  - destruct (IH H) as (a & p & q & -> & Hp). exists (String c a), p, q. auto.
Qed.

Lemma test_line_start_sound (r : regex) (s : string) :
  test_line_start r s = true -> exists a p q, s = a ++ p ++ q /\ Matches r p.
Proof.
  unfold test_line_start. rewrite orb_true_iff. intros [H|H].
  - apply match_here_spec in H as (p & q & -> & H). exists "", p, q. auto.
  - now apply test_after_sound.
Qed.

Lemma Matches_Lit (l p : string) : Matches (Lit l) p <-> p = l.
Proof.
  revert p. induction l as [|c l IH]; intros p; simpl.
  - split; [intros H; now inversion H | intros ->; constructor].
  - split.
    + intros H. apply Matches_cat_inv in H as (s1 & s2 & -> & H1 & H2).
      apply Matches_chr_inv in H1 as ->. apply IH in H2. now subst.
    + intros ->. apply (Matches_cat (Chr c) (Lit l) (String c "") l).
      * constructor.
      * now apply IH.
Qed.

Lemma test_Lit (l s : string) : test (Lit l) s = true <-> Contains l s.
Proof.
  rewrite test_spec. unfold Contains. split.
  - intros (a & p & q & -> & H). apply Matches_Lit in H as ->. eauto.
  - intros (a & q & ->). exists a, l, q. split; [reflexivity | now apply Matches_Lit].
Qed.

Lemma test_start_Lit (l s : string) : test_start (Lit l) s = true <-> StartsWith l s.
Proof.
  unfold test_start, StartsWith. rewrite match_here_spec. split.
  - intros (p & q & -> & H). apply Matches_Lit in H as ->. eauto.
  - intros (q & ->). exists l, q. split; [reflexivity | now apply Matches_Lit].
Qed.

(** A match of [={3,}] starts with three [=]. *)
Lemma Matches_border (p : string) :
  Matches re_border p -> exists more, p = "===" ++ more.
Proof.
  unfold re_border, AtLeast3. intros H.
  apply Matches_cat_inv in H as (a1 & b1 & -> & Ha1 & Hb1).
  apply Matches_cat_inv in Hb1 as (a2 & b2 & -> & Ha2 & Hb2).
  apply Matches_cat_inv in Hb2 as (a3 & b3 & -> & Ha3 & Hb3).
  apply Matches_chr_inv in Ha1 as ->. apply Matches_chr_inv in Ha2 as ->.
  apply Matches_chr_inv in Ha3 as ->. exists b3. reflexivity.
Qed.

Lemma Matches_border_min : Matches re_border "===".
Proof.
  unfold re_border, AtLeast3.
  apply (Matches_cat _ _ "=" "=="); [constructor|].
  apply (Matches_cat _ _ "=" "="); [constructor|].
  apply (Matches_cat _ _ "=" ""); constructor.
Qed.

Lemma test_border (s : string) : test re_border s = true <-> Contains "===" s.
Proof.
  rewrite test_spec. split.
  - intros (a & p & q & -> & H). apply Matches_border in H as (more & ->).
    exists a, (more ++ q). now rewrite !append_assoc.
  - intros (a & q & ->). exists a, "===", q. split; [reflexivity | apply Matches_border_min].
Qed.

(** The two hash-prefixed borders contain a plain border. *)
Lemma Matches_prefixed_border (r1 r2 : regex) (p : string) :
  Matches (Cat r1 (Cat r2 re_border)) p -> Contains "===" p.
Proof.
  intros H.
  apply Matches_cat_inv in H as (a1 & b1 & -> & Ha1 & Hb1).
  apply Matches_cat_inv in Hb1 as (a2 & b2 & -> & Ha2 & Hb2).
  apply Matches_border in Hb2 as (more & ->).
  exists (a1 ++ a2), more. now rewrite !append_assoc.
Qed.

Lemma Contains_inside (needle a p q : string) :
  Contains needle p -> Contains needle (a ++ p ++ q).
Proof. intros H. now apply Contains_append_r, Contains_append_l. Qed.

Lemma test_hash_border (s : string) :
  test re_hash_border s = true -> Contains "===" s.
Proof.
  intros H. apply test_spec in H as (a & p & q & -> & H).
  apply Contains_inside. exact (Matches_prefixed_border _ _ _ H).
Qed.

Lemma test_hash_line (s : string) :
  test_line_start re_hash_line s = true -> Contains "===" s.
Proof.
  intros H. apply test_line_start_sound in H as (a & p & q & -> & H).
  apply Contains_inside. exact (Matches_prefixed_border _ _ _ H).
Qed.

End RegexFacts.

(** * Existing-header detection *)

Section HeaderDetection.

Lemma split_nonnil (sep : ascii) (s : string) : JS.split sep s <> [].
Proof.
  induction s as [|c s IH]; simpl; [discriminate|].
  destruct (Ascii.eqb c sep); [discriminate|].
  destruct (JS.split sep s); discriminate.
Qed.

Lemma hasHeaderAtTop_tests (text : string) :
  hasHeaderAtTop text = signature_tests text.
Proof.
  unfold hasHeaderAtTop, signature_tests.
  destruct (String.eqb_spec text "") as [->|_]; [reflexivity|].
  destruct (Regex.test re_block_open _); [reflexivity|].
  destruct (Regex.test_start re_shebang _ && _); [reflexivity|].
  destruct (Regex.test re_border (first_lines 8 text)); [reflexivity|].
  destruct (Regex.test_line_start _ _); reflexivity.
Qed.

Lemma hasHeaderAtTop_signature (text : string) :
  hasHeaderAtTop text = true <-> header_signature text.
Proof.
  rewrite hasHeaderAtTop_tests. unfold signature_tests, header_signature.
  rewrite !orb_true_iff, andb_true_iff, orb_true_iff.
  unfold re_block_open, re_shebang.
  rewrite test_Lit, test_start_Lit, !test_border. split.
  - intros [[[H|[H1 [H2|H2]]]|H]|H]; auto.
    + right. left. split; [assumption | now apply test_hash_border].
    + right. right. now apply test_hash_line.
  - intros [H|[[H1 H2]|H]]; auto.
    left. left. right. auto.
Qed.

Lemma first_lines_take (n : nat) (t1 t2 : string) :
  take n (JS.split "010"%char t1) = take n (JS.split "010"%char t2) ->
  first_lines n t1 = first_lines n t2.
Proof. unfold first_lines. now intros ->. Qed.

Lemma hasHeaderAtTop_local (t1 t2 : string) :
  take 10 (JS.split "010"%char t1) = take 10 (JS.split "010"%char t2) ->
  hasHeaderAtTop t1 = hasHeaderAtTop t2.
Proof.
  intros H. rewrite !hasHeaderAtTop_tests. unfold signature_tests.
  assert (H8 : first_lines 8 t1 = first_lines 8 t2).
  { apply first_lines_take.
    replace 8 with (8 `min` 10) by reflexivity.
    rewrite <- !take_take. now rewrite H. }
  rewrite (first_lines_take 10 t1 t2 H), H8. reflexivity.
Qed.

Lemma first_lines_block_open (rest : string) :
  exists more, first_lines 8 ("/**" ++ rest) = "/**" ++ more.
Proof.
  unfold first_lines. simpl.
  destruct (JS.split "010"%char rest) as [|x xs] eqn:E.
  - now apply split_nonnil in E.
  - simpl. destruct (take 7 xs) as [|y ys].
    + exists x. reflexivity.
    + eexists. reflexivity.
Qed.

Lemma hasHeaderAtTop_block_open (rest : string) :
  hasHeaderAtTop ("/**" ++ rest) = true.
Proof.
  apply hasHeaderAtTop_signature. left.
  destruct (first_lines_block_open rest) as (more & ->).
  exists "", more. reflexivity.
Qed.

End HeaderDetection.

(** C8: [hasHeaderAtTop] is a total test that looks at the first ten
    lines only; it answers true exactly when [/**] occurs in the first
    eight lines, or these lines, trimmed, begin with [#!] and three [=]
    in a row occur in the first ten lines, or three [=] in a row (with
    or without a [#] before them) occur in the first eight lines; it
    answers true for every text that begins with [/**] and false for
    the empty string. *)
Theorem C8_hasHeaderAtTop_spec :
  (forall text : string, hasHeaderAtTop text = true <-> header_signature text)
  /\ (forall text : string, hasHeaderAtTop text = false <-> ~ header_signature text)
  /\ (forall t1 t2 : string,
        take 10 (JS.split "010"%char t1) = take 10 (JS.split "010"%char t2) ->
        hasHeaderAtTop t1 = hasHeaderAtTop t2)
  /\ (forall rest : string, hasHeaderAtTop ("/**==" ++ rest) = true)
  /\ hasHeaderAtTop "" = false.
Proof.
  split; [apply hasHeaderAtTop_signature|].
  split.
  { intros text. rewrite <- hasHeaderAtTop_signature.
    destruct (hasHeaderAtTop text); split; congruence. }
  split; [apply hasHeaderAtTop_local|].
  split; [|reflexivity].
  intros rest. apply (hasHeaderAtTop_block_open ("==" ++ rest)).
Qed.

Lemma C8_hasHeaderAtTop_witness :
  hasHeaderAtTop (JS.repeat_char "010"%char 10 ++ "/**")
  = hasHeaderAtTop (JS.repeat_char "010"%char 10 ++ "int x;").
Proof.
  exact (proj1 (proj2 (proj2 C8_hasHeaderAtTop_spec)) _ _ eq_refl).
Defined.

(** * The entry points *)

#[local] Arguments guard_block : simpl never.
#[local] Arguments guarded_class : simpl never.
#[local] Arguments impl : simpl never.
#[local] Arguments makeGuardMacro : simpl never.
#[local] Arguments toClassName : simpl never.
#[local] Arguments makeCommentBlock : simpl never.
#[local] Arguments Legacy.makeCommentBlock : simpl never.
#[local] Arguments detectStyle : simpl never.
#[local] Arguments formatDate : simpl never.
#[local] Arguments identity_of_editor : simpl never.
#[local] Arguments identity_of_created : simpl never.
#[local] Arguments hasHeaderAtTop : simpl never.
#[local] Arguments additions : simpl never.
#[local] Arguments with_shebang : simpl never.
#[local] Arguments JS.join : simpl never.
#[local] Arguments JS.orElse : simpl never.
#[local] Arguments JS.or_str : simpl never.
#[local] Arguments JS.trim : simpl never.
#[local] Arguments String.append : simpl never.

Section WhiteSpace.

Lemma all_chars_append (p : ascii -> bool) (a b : string) :
  all_chars p (a ++ b) = all_chars p a && all_chars p b.
Proof.
  induction a as [|c a IH]; [reflexivity|].
  change (String c a ++ b) with (String c (a ++ b)). simpl.
  now rewrite IH, andb_assoc.
Qed.

Lemma trimStart_blank (s : string) :
  all_chars JS.is_space (JS.trimStart s) = true -> all_chars JS.is_space s = true.
Proof.
  induction s as [|c s IH]; simpl; [auto|].
  destruct (JS.is_space c) eqn:Hc; simpl; [auto|]. now rewrite Hc.
Qed.

Lemma trimEnd_blank (s : string) :
  JS.trimEnd s = "" -> all_chars JS.is_space s = true.
Proof.
  induction s as [|c s IH]; simpl; [auto|].
  destruct (JS.trimEnd s); [|discriminate].
  destruct (JS.is_space c); [auto | discriminate].
Qed.

Lemma trim_blank (s : string) : JS.trim s = "" -> all_chars JS.is_space s = true.
Proof. intros H. now apply trimStart_blank, trimEnd_blank. Qed.

Lemma split_all_chars (p : ascii -> bool) (sep : ascii) (s : string) :
  all_chars p s = true ->
  Forall (fun x => all_chars p x = true) (JS.split sep s).
Proof.
  induction s as [|c s IH]; simpl; [repeat constructor|].
  intros H. apply andb_true_iff in H as [Hc Hs]. specialize (IH Hs).
  destruct (Ascii.eqb c sep); [now constructor|].
  destruct (JS.split sep s) as [|x xs]; [repeat constructor; simpl; now rewrite Hc|].
  inversion IH; subst. constructor; [simpl; now rewrite Hc | assumption].
Qed.

Lemma join_all_chars (p : ascii -> bool) (sep : string) (l : list string) :
  all_chars p sep = true ->
  Forall (fun x => all_chars p x = true) l ->
  all_chars p (JS.join sep l) = true.
Proof.
  intros Hsep. induction 1 as [|x l Hx Hl IH]; [reflexivity|].
  destruct l as [|y l]; [exact Hx|].
  change (all_chars p (x ++ sep ++ JS.join sep (y :: l)) = true).
  now rewrite !all_chars_append, Hx, Hsep, IH.
Qed.

Lemma first_lines_blank (n : nat) (s : string) :
  all_chars JS.is_space s = true -> all_chars JS.is_space (first_lines n s) = true.
Proof.
  intros H. apply join_all_chars; [reflexivity|].
  apply Forall_take. now apply split_all_chars.
Qed.

Lemma Contains_all_chars (p : ascii -> bool) (needle s : string) :
  Contains needle s -> all_chars p s = true -> all_chars p needle = true.
Proof.
  intros (a & b & ->). rewrite !all_chars_append, !andb_true_iff. tauto.
Qed.

(** A text with a header signature is not blank. *)
Lemma header_not_blank (text : string) :
  hasHeaderAtTop text = true -> String.eqb (JS.trim text) "" = false.
Proof.
  intros H. apply String.eqb_neq. intros Ht. apply trim_blank in Ht.
  apply hasHeaderAtTop_signature in H.
  destruct H as [H|[[_ H]|H]];
    apply (Contains_all_chars JS.is_space) in H;
    try discriminate H; now apply first_lines_blank.
Qed.

End WhiteSpace.

(** Unfolding an entry point on a host given by its fields. *)
Ltac step :=
  unfold try_catch, bind, ret, return_, throw, perform, current_document, doc_getText,
    showInputBox, showInformationMessage, showWarningMessage, console_error,
    config_get, config_update, env_get, new_Date, insert_at_top, stored_author,
    persist_author, perform in *;
  cbn in *.

Ltac enter h :=
  destruct h as [doc cfg env clk coming writable history];
  unfold new_events, invoke, run, task_of, insertHeader, LegacyCommand.insertHeader,
    autoInsertHeaderForDocument, interactiveInsertForCreatedDocument,
    default_author, answer in *;
  cbn in *; subst; step.

(** The coming answers, as far as three prompts look. *)
Ltac coming_cases :=
  match goal with
  | c : list JS.value |- _ => destruct c as [|? [|? [|? ?]]]
  end.

Section ExistingHeader.

Ltac finish_existing :=
  rewrite <- ?app_assoc;
  split; [|split; [|split; [coming_cases; reflexivity|split; reflexivity]]];
  [simpl; lia | repeat constructor].

Lemma auto_existing (h : Host) (d : TextDocument) :
  document h = Some d -> hasHeaderAtTop (getText d) = true ->
  invoke AutoInsertHeader h = h.
Proof.
  intros Hdoc Hheader. pose proof (header_not_blank _ Hheader) as Hb.
  enter h. rewrite Hb. cbn. now rewrite Hheader.
Qed.

Lemma interactive_existing (h : Host) (d : TextDocument) :
  document h = Some d -> hasHeaderAtTop (getText d) = true ->
  invoke InteractiveInsertOnCreate h = h.
Proof.
  intros Hdoc Hheader. pose proof (header_not_blank _ Hheader) as Hb.
  enter h. rewrite Hb. cbn. now rewrite Hheader.
Qed.

Lemma command_existing (h : Host) (d : TextDocument) :
  document h = Some d -> hasHeaderAtTop (getText d) = true ->
  exists guard,
    List.length guard <= 1
    /\ Forall (fun e => is_prompt e = true) guard
    /\ events (invoke InsertHeader h)
       = app (events h)
           (app [author_prompt (default_author h) (answer 0 h);
                 description_prompt (answer 1 h)]
              (app guard [InformationMessage "A header already exists in this file."]))
    /\ document (invoke InsertHeader h) = document h
    /\ configuration (invoke InsertHeader h) = configuration h.
Proof.
  intros Hdoc Hheader. enter h.
  destruct (String.eqb (extNoDot (identity_of_editor d)) "c"); cbn.
  { rewrite Hheader. cbn. exists []. finish_existing. }
  destruct (String.eqb (extNoDot (identity_of_editor d)) "h"); cbn.
  { rewrite Hheader. cbn. eexists [_]. finish_existing. }
  destruct (String.eqb (extNoDot (identity_of_editor d)) "hpp"); cbn.
  { rewrite Hheader. cbn. eexists [_]. finish_existing. }
  destruct (String.eqb (extNoDot (identity_of_editor d)) "cpp"); cbn.
  { rewrite Hheader. cbn. exists []. finish_existing. }
  rewrite Hheader. cbn. exists []. finish_existing.
Qed.

End ExistingHeader.

Section Generated.

Lemma detectStyle_py (b : string) : detectStyle "py" b = mkDetected "hash" true.
Proof. reflexivity. Qed.

Lemma detectStyle_cpp (b : string) : detectStyle "cpp" b = mkDetected "block" false.
Proof. reflexivity. Qed.

Lemma additions_py (id : FileIdentity) (t : string) :
  extNoDot id = "py" -> additions id t = t.
Proof. unfold additions. now intros ->. Qed.

Lemma additions_cpp (id : FileIdentity) (t : string) :
  extNoDot id = "cpp" -> additions id t = t ++ JS.join newline (impl (basename id)).
Proof. unfold additions. now intros ->. Qed.

(** The first two lines of a generated text for a Python file. *)
Lemma shebang_then_border (f : string) (d a dt : JS.value) :
  exists rest,
    shebang_line ++ makeCommentBlock f d a dt "hash"
    = "#!/usr/bin/env python3" ++ newline ++ "# " ++ border_top ++ newline ++ rest.
Proof.
  rewrite makeCommentBlock_frame. unfold frame, field_lines. cbn.
  eexists. unfold shebang_line. rewrite !append_assoc. reflexivity.
Qed.

End Generated.

(** Taking the events of the invocation off the history. *)
Ltac fresh_events :=
  rewrite <- ?app_assoc; first [rewrite drop_app_length | rewrite drop_all]; cbn.

(** One case analysis on a condition the invocation branches on. *)
Ltac branch :=
  match goal with
  | |- context [if ?b then _ else _] => destruct b eqn:?; step
  end.

(** On an empty document neither guard of the entry points holds. *)
Ltac on_empty_text :=
  match goal with
  | Hempty : getText _ = "", H : _ = true |- _ =>
      rewrite Hempty in H; vm_compute in H; discriminate H
  end.

(** What is generated for the extension [py]. *)
Ltac python :=
  fresh_events;
  match goal with
  | Hext : extNoDot _ = "py" |- _ =>
      rewrite ?additions_py by exact Hext; rewrite ?Hext, ?detectStyle_py
  end;
  unfold with_shebang; cbn.

(** C9: for a file with extension [py], whatever an entry point
    inserts is the shebang line followed by the hash-prefixed comment
    block, so that its first line is the shebang line and its second
    the border; the three entry points of the current variant insert
    exactly one such text into an empty document (the legacy command
    inserts nothing for this extension). *)
Theorem C9_shebang_first_line :
  forall (ep : EntryPoint) (h : Host) (d : TextDocument),
    document h = Some d ->
    extNoDot (identity_of ep d) = "py" ->
    (forall t, In t (inserted_texts (new_events ep h)) ->
       (exists desc author,
          t = shebang_line
              ++ makeCommentBlock (basenameWithExt (identity_of ep d)) desc author
                   (Some (formatDate (clock h))) "hash")
       /\ (exists rest,
             t = "#!/usr/bin/env python3" ++ newline
                 ++ "# " ++ border_top ++ newline ++ rest))
    /\ (getText d = "" -> ep <> LegacyInsertHeader ->
        exists t, inserted_texts (new_events ep h) = [t]).
Proof.
  intros ep h d Hdoc Hext.
  assert (Hshape : forall t,
            (exists desc author,
               t = shebang_line
                   ++ makeCommentBlock (basenameWithExt (identity_of ep d)) desc author
                        (Some (formatDate (clock h))) "hash") ->
            exists rest,
              t = "#!/usr/bin/env python3" ++ newline
                  ++ "# " ++ border_top ++ newline ++ rest).
  { intros t (desc & author & ->). apply shebang_then_border. }
  assert (Hgen : forall t, In t (inserted_texts (new_events ep h)) ->
            exists desc author,
              t = shebang_line
                  ++ makeCommentBlock (basenameWithExt (identity_of ep d)) desc author
                       (Some (formatDate (clock h))) "hash").
  { clear Hshape. intros t. destruct ep; enter h.
    - rewrite Hext. cbn. fresh_events. tauto.
    - rewrite Hext. cbn. repeat branch; python; intros [<-|[]] || tauto; eauto.
    - repeat branch; python; intros [<-|[]] || tauto; eauto.
    - repeat branch; python; intros [<-|[]] || tauto; eauto. }
  split.
  - intros t Ht. split; [|apply Hshape]; now apply Hgen.
  - clear Hshape Hgen. intros Hempty Hep.
    destruct ep; [congruence| | |]; enter h; rewrite ?Hext; cbn;
      repeat branch; try on_empty_text; fresh_events; eauto.
Qed.

Lemma C9_shebang_witness :
  exists t,
    inserted_texts
      (new_events InsertHeader
         (host_of "/w/tool.py" EmptyString ∅ [Some "me"; Some "a tool"])) = [t]
    /\ exists rest, t = "#!/usr/bin/env python3" ++ newline
                        ++ "# " ++ border_top ++ newline ++ rest.
Proof.
  destruct (C9_shebang_first_line InsertHeader
              (host_of "/w/tool.py" EmptyString ∅ [Some "me"; Some "a tool"])
              (mkDocument "/w/tool.py" "/w/tool.py" "/w/tool.py" EmptyString)
              eq_refl eq_refl) as [Hall Hone].
  destruct (Hone eq_refl ltac:(discriminate)) as [t Ht].
  exists t. split; [exact Ht|].
  apply Hall. rewrite Ht. left. reflexivity.
Defined.

Lemma impl_game : JS.join newline (impl "Game") = game_implementation.
Proof. reflexivity. Qed.

(** What is generated for the extension [cpp]. *)
Ltac cplusplus :=
  fresh_events;
  match goal with
  | Hext : extNoDot _ = "cpp", Hbase : basename _ = "Game" |- _ =>
      rewrite ?additions_cpp by exact Hext;
      rewrite ?Hext, ?Hbase, ?detectStyle_cpp, ?impl_game
  end;
  unfold with_shebang; cbn.

(** C2, as amended: for base name [Game] and extension [cpp], whatever
    an entry point inserts is the block-style comment block followed at
    once by the include line of [Game.hpp] and the two empty-bodied
    definitions; every entry point inserts exactly one such text into
    an empty document. *)
Theorem C2_game_cpp_after_comment :
  forall (ep : EntryPoint) (h : Host) (d : TextDocument),
    document h = Some d ->
    basename (identity_of ep d) = "Game" ->
    extNoDot (identity_of ep d) = "cpp" ->
    (forall t, In t (inserted_texts (new_events ep h)) ->
       exists fields,
         t = (JS.join newline (frame "block" fields) ++ newline ++ newline)
             ++ game_implementation)
    /\ (getText d = "" -> exists t, inserted_texts (new_events ep h) = [t]).
Proof.
  intros ep h d Hdoc Hbase Hext.
  assert (Hcur : forall f de a dt,
            exists fields,
              makeCommentBlock f de a dt "block" ++ game_implementation
              = (JS.join newline (frame "block" fields) ++ newline ++ newline)
                ++ game_implementation).
  { intros. rewrite makeCommentBlock_frame. eauto. }
  assert (Hleg : forall f de a dt,
            exists fields,
              Legacy.makeCommentBlock f de a dt ++ game_implementation
              = (JS.join newline (frame "block" fields) ++ newline ++ newline)
                ++ game_implementation).
  { intros. rewrite legacy_makeCommentBlock_frame. eauto. }
  split.
  - intros t. destruct ep; enter h.
    + rewrite Hext. cbn. step. cplusplus. intros [<-|[]]. apply Hleg.
    + rewrite Hext. cbn. repeat branch; cplusplus; intros [<-|[]] || tauto; apply Hcur.
    + repeat branch; cplusplus; intros [<-|[]] || tauto; apply Hcur.
    + repeat branch; cplusplus; intros [<-|[]] || tauto; apply Hcur.
  - clear Hcur Hleg. intros Hempty.
    destruct ep; enter h; rewrite ?Hext; cbn; step;
      repeat branch; try on_empty_text; fresh_events; eauto.
Qed.

Lemma C2_game_cpp_witness :
  exists t,
    inserted_texts
      (new_events AutoInsertHeader (host_of "/w/Game.cpp" EmptyString ∅ [])) = [t]
    /\ exists fields,
         t = (JS.join newline (frame "block" fields) ++ newline ++ newline)
             ++ game_implementation.
Proof.
  destruct (C2_game_cpp_after_comment AutoInsertHeader
              (host_of "/w/Game.cpp" EmptyString ∅ [])
              (mkDocument "/w/Game.cpp" "/w/Game.cpp" "/w/Game.cpp" EmptyString)
              eq_refl eq_refl eq_refl) as [Hall Hone].
  destruct (Hone eq_refl) as [t Ht].
  exists t. split; [exact Ht|].
  apply Hall. rewrite Ht. left. reflexivity.
Defined.

(** C2, as stated, fails: what the command inserts into the empty
    [Game.cpp] begins with the comment block, not with the include line. *)
Lemma C2_counterexample :
  exists t,
    inserted_texts
      (new_events InsertHeader (host_of "/w/Game.cpp" EmptyString ∅ [])) = [t]
    /\ StartsWith ("/**" ++ border_top) t
    /\ ~ starts_with_include t.
Proof.
  eexists. split; [vm_compute; reflexivity|]. split.
  - eexists. vm_compute. reflexivity.
  - intros [rest H]. vm_compute in H. discriminate H.
Qed.

Section Persist.

Lemma or_str_same (a : string) : JS.or_str a a = a.
Proof. now destruct a. Qed.

Lemma orElse_falsy (v : JS.value) (dflt : string) :
v = None \/ v = Some EmptyString -> JS.orElse v dflt = dflt.
Proof. now intros [->| ->]. Qed.

Lemma truthy_falsy (v : JS.value) :
v = None \/ v = Some EmptyString -> JS.truthy v = false.
Proof. now intros [->| ->]. Qed.

Lemma truthy_text (v : JS.value) :
JS.truthy v = true -> v = Some (JS.text_of v) /\ JS.text_of v <> EmptyString.
Proof. destruct v as [[|c s]|]; try discriminate. now split. Qed.

(** A generated text keeps its comment block in one piece. *)
Lemma with_shebang_around (det : Detected) (c rest : string) :
exists pre, with_shebang det (c ++ rest) = pre ++ c ++ rest.
Proof.
unfold with_shebang. destruct (shebang det).
- now exists shebang_line.
- now exists EmptyString.
Qed.

Lemma with_shebang_around_plain (det : Detected) (c : string) :
exists pre rest, with_shebang det c = pre ++ c ++ rest.
Proof.
destruct (with_shebang_around det c EmptyString) as [pre H].
rewrite append_nil_r in H. exists pre, EmptyString. now rewrite append_nil_r.
Qed.

Lemma additions_around (id : FileIdentity) (c : string) :
exists rest, additions id c = c ++ rest.
Proof.
unfold additions.
destruct (String.eqb (extNoDot id) "h"); [eauto|].
destruct (String.eqb (extNoDot id) "hpp"); [eauto|].
destruct (String.eqb (extNoDot id) "cpp"); [eauto|].
exists EmptyString. now rewrite append_nil_r.
Qed.

Lemma generated_around (det : Detected) (id : FileIdentity) (c : string) :
exists pre rest, with_shebang det (additions id c) = pre ++ c ++ rest.
Proof.
destruct (additions_around id c) as [rest ->].
destruct (with_shebang_around det c rest) as [pre ->]. eauto.
Qed.

Lemma persist_condition (input saved : JS.value) :
JS.truthy input && bool_decide (input <> saved) = true ->
exists a, input = Some a /\ a <> EmptyString /\ saved <> Some a.
Proof.
intros H. apply andb_true_iff in H as [Ht Hne].
apply bool_decide_eq_true in Hne. apply truthy_text in Ht as [Ha Hnz].
exists (JS.text_of input). repeat split; [exact Ha | exact Hnz|].
intros E. apply Hne. now rewrite Ha, E.
Qed.

End Persist.

(** The stored author changes only on a new, non-empty answer. *)
Ltac persisted :=
  match goal with
  | H : JS.truthy _ && bool_decide _ = true |- _ =>
      destruct (persist_condition _ _ H) as (a & -> & Hnz & Hne);
      right; exists a;
      split; [reflexivity|]; split; [exact Hnz|]; split; [exact Hne|];
      split; [fresh_events; auto | reflexivity]
  end.

(** No update on a dismissed or empty answer. *)
Ltac no_new_author :=
  match goal with
  | Hans : _ = None \/ _ = Some EmptyString, H : JS.truthy _ && _ = true |- _ =>
      rewrite (truthy_falsy _ Hans) in H; discriminate H
  end.

(** The comment block of a generated text carries the default author. *)
Ltac default_used :=
  fresh_events;
  match goal with
  | H : _ = None \/ _ = Some EmptyString |- _ =>
      rewrite ?(orElse_falsy _ _ H), ?or_str_same
  | _ => rewrite ?or_str_same
  end;
  first
    [ tauto
    | intros [<-|[]];
      match goal with
      | |- context [with_shebang ?det (additions ?id ?c)] =>
          destruct (generated_around det id c) as (pre & rest & ->)
      | |- context [with_shebang ?det (?c ++ ?r)] =>
          destruct (with_shebang_around det c r) as [pre ->]
      | |- context [with_shebang ?det ?c] =>
          destruct (with_shebang_around_plain det c) as (pre & rest & ->)
      end;
      do 3 eexists; reflexivity ].

(** C10: on the two interactive paths of the current variant the
    stored settings either stay as they are or get [defaultAuthor] set
    to the answer of the author prompt, and the latter only when that
    answer is a non-empty string other than the stored value; when the
    prompt is dismissed or answered with the empty string the settings
    stay as they are and the comment block of whatever is inserted
    carries the default author. *)
Theorem C10_author_persisted_only_when_new :
  forall (ep : EntryPoint) (h : Host),
    ep = InsertHeader \/ ep = InteractiveInsertOnCreate ->
    (configuration (invoke ep h) = configuration h
     \/ exists a,
          answer 0 h = Some a
          /\ a <> EmptyString
          /\ configuration h !! "defaultAuthor" <> Some a
          /\ In (author_prompt (default_author h) (Some a)) (new_events ep h)
          /\ configuration (invoke ep h) = <["defaultAuthor" := a]> (configuration h))
    /\ (answer 0 h = None \/ answer 0 h = Some EmptyString ->
        configuration (invoke ep h) = configuration h
        /\ forall d t,
             document h = Some d ->
             In t (inserted_texts (new_events ep h)) ->
             exists desc pre rest,
               t = pre
                   ++ makeCommentBlock (basenameWithExt (identity_of ep d)) desc
                        (Some (default_author h)) (Some (formatDate (clock h)))
                        (style (detectStyle (extNoDot (identity_of ep d))
                                  (basenameWithExt (identity_of ep d))))
                   ++ rest).
Proof.
  intros ep h Hep. split.
  - destruct (document h) as [d|] eqn:Hdoc.
    + destruct Hep as [-> | ->]; enter h;
        destruct coming as [|a0 coming]; cbn; repeat branch; auto; persisted.
    + destruct Hep as [-> | ->]; enter h; auto.
  - intros Hans. split.
    + destruct (document h) as [d|] eqn:Hdoc.
      * destruct Hep as [-> | ->]; enter h;
          destruct coming as [|a0 coming]; cbn in *;
          repeat branch; auto; no_new_author.
      * destruct Hep as [-> | ->]; enter h; auto.
    + intros d t Hdoc.
      destruct Hep as [-> | ->]; enter h;
        destruct coming as [|a0 coming]; cbn in *;
        repeat branch; try no_new_author; default_used.
Qed.

Lemma new_events_app (ep : EntryPoint) (h : Host) (evs : list Event) :
  events (invoke ep h) = app (events h) evs -> new_events ep h = evs.
Proof. unfold new_events. intros ->. apply drop_app_length. Qed.

Lemma new_events_same (ep : EntryPoint) (h : Host) :
  invoke ep h = h -> new_events ep h = [].
Proof. unfold new_events. intros ->. apply drop_all. Qed.

Lemma inserted_texts_prompts (evs : list Event) :
  Forall (fun e => is_prompt e = true) evs -> inserted_texts evs = [].
Proof.
  induction 1 as [|e evs He _ IH]; [reflexivity|].
  destruct e; try discriminate He. exact IH.
Qed.

Lemma inserted_texts_app (a b : list Event) :
  inserted_texts (app a b) = app (inserted_texts a) (inserted_texts b).
Proof. unfold inserted_texts. apply omap_app. Qed.

(** C1, as amended: on a document that already has a header the three
    entry points of the current variant leave the document and the
    settings as they are and insert nothing; the command shows its
    prompts and then the notice that a header exists, the two
    insertions on creation do nothing at all and tell nothing. *)
Theorem C1_existing_header_untouched :
  forall (ep : EntryPoint) (h : Host) (d : TextDocument),
    ep <> LegacyInsertHeader ->
    document h = Some d ->
    hasHeaderAtTop (getText d) = true ->
    document (invoke ep h) = Some d
    /\ configuration (invoke ep h) = configuration h
    /\ inserted_texts (new_events ep h) = []
    /\ match ep with
       | InsertHeader =>
           exists prompts,
             Forall (fun e => is_prompt e = true) prompts
             /\ new_events ep h = app prompts [header_exists_notice]
       | _ => new_events ep h = []
       end.
Proof.
  intros ep h d Hep Hdoc Hheader. destruct ep; [congruence | | |].
  - destruct (command_existing h d Hdoc Hheader) as (guard & _ & Hguard & Hev & Hd & Hc).
    apply new_events_app in Hev.
    assert (Hp : Forall (fun e => is_prompt e = true)
                   (app [author_prompt (default_author h) (answer 0 h);
                         description_prompt (answer 1 h)] guard)).
    { repeat constructor. exact Hguard. }
    split; [now rewrite Hd|]. split; [exact Hc|]. split.
    + rewrite Hev, app_assoc, inserted_texts_app, (inserted_texts_prompts _ Hp).
      reflexivity.
    + eexists. split; [exact Hp|]. now rewrite Hev, app_assoc.
  - pose proof (auto_existing h d Hdoc Hheader) as E.
    rewrite (new_events_same _ _ E). rewrite E. auto.
  - pose proof (interactive_existing h d Hdoc Hheader) as E.
    rewrite (new_events_same _ _ E). rewrite E. auto.
Qed.

Lemma C1_existing_header_witness :
  (exists prompts,
     Forall (fun e => is_prompt e = true) prompts
     /\ new_events InsertHeader (host_of "/w/main.c" bordered ∅ [Some "me"])
        = app prompts [header_exists_notice])
  /\ new_events AutoInsertHeader (host_of "/w/main.c" bordered ∅ []) = [].
Proof.
  split.
  - exact (proj2 (proj2 (proj2
      (C1_existing_header_untouched InsertHeader
         (host_of "/w/main.c" bordered ∅ [Some "me"])
         (mkDocument "/w/main.c" "/w/main.c" "/w/main.c" bordered)
         ltac:(discriminate) eq_refl eq_refl)))).
  - exact (proj2 (proj2 (proj2
      (C1_existing_header_untouched AutoInsertHeader
         (host_of "/w/main.c" bordered ∅ [])
         (mkDocument "/w/main.c" "/w/main.c" "/w/main.c" bordered)
         ltac:(discriminate) eq_refl eq_refl)))).
Defined.

(** C1, as stated, fails: on a document that has a header the two
    insertions on creation tell the user nothing, and the legacy
    command inserts a second header. *)
Lemma C1_counterexample :
  hasHeaderAtTop bordered = true
  /\ ~ untouched_and_reported AutoInsertHeader (host_of "/w/main.c" bordered ∅ [])
  /\ ~ untouched_and_reported InteractiveInsertOnCreate (host_of "/w/main.c" bordered ∅ [])
  /\ ~ untouched_and_reported LegacyInsertHeader (host_of "/w/main.c" bordered ∅ []).
Proof.
  split; [reflexivity|]. split; [|split].
  - intros [_ H]. vm_compute in H. inversion H.
  - intros [_ H]. vm_compute in H. inversion H.
  - intros [H _]. vm_compute in H. discriminate H.
Qed.

(** C3, as amended: the insertion without prompts never prompts; the
    two insertions on creation stop on a document that is not blank,
    and so on every document with a header, before any prompt; the
    command checks for a header after its prompts for author and
    description (and for the guard macro) and before the insertion, so
    that on a document with a header the prompts are shown and then
    the notice. *)
Theorem C3_short_circuit_order :
  forall (h : Host) (d : TextDocument),
    document h = Some d ->
    no_prompt AutoInsertHeader h
    /\ (JS.trim (getText d) <> EmptyString ->
        new_events AutoInsertHeader h = []
        /\ new_events InteractiveInsertOnCreate h = [])
    /\ (hasHeaderAtTop (getText d) = true ->
        JS.trim (getText d) <> EmptyString
        /\ exists guard,
             List.length guard <= 1
             /\ Forall (fun e => is_prompt e = true) guard
             /\ new_events InsertHeader h
                = app [author_prompt (default_author h) (answer 0 h);
                       description_prompt (answer 1 h)]
                    (app guard [header_exists_notice])).
Proof.
  intros h d Hdoc. split; [|split].
  - unfold no_prompt. enter h. repeat branch; fresh_events; repeat constructor.
  - intros Hblank. apply String.eqb_neq in Hblank.
    split; apply new_events_same; enter h; rewrite Hblank; cbn;
      now destruct (hasHeaderAtTop (getText d)).
  - intros Hheader. split.
    + apply String.eqb_neq. now apply header_not_blank.
    + destruct (command_existing h d Hdoc Hheader) as (guard & Hlen & Hguard & Hev & _).
      exists guard. split; [exact Hlen|]. split; [exact Hguard|].
      now apply new_events_app.
Qed.

Lemma C3_short_circuit_witness :
  no_prompt AutoInsertHeader (host_of "/w/main.c" bordered ∅ [])
  /\ new_events InteractiveInsertOnCreate (host_of "/w/main.c" bordered ∅ []) = [].
Proof.
  destruct (C3_short_circuit_order (host_of "/w/main.c" bordered ∅ [])
              (mkDocument "/w/main.c" "/w/main.c" "/w/main.c" bordered) eq_refl)
    as (Hauto & Hblank & _).
  split; [exact Hauto|].
  apply Hblank. vm_compute. discriminate.
Defined.

(** C3, as stated, fails: on a document that has a header the command
    shows its two prompts before it tells that a header exists. *)
Lemma C3_counterexample :
  hasHeaderAtTop bordered = true
  /\ new_events InsertHeader (host_of "/w/main.c" bordered ∅ [Some "me"])
     = [author_prompt "dan" (Some "me"); description_prompt None; header_exists_notice]
  /\ ~ no_prompt InsertHeader (host_of "/w/main.c" bordered ∅ [Some "me"]).
Proof.
  split; [reflexivity|]. split; [vm_compute; reflexivity|].
  intros H. vm_compute in H. inversion H as [|? ? Hp _]. discriminate Hp.
Qed.

Lemma C10_author_persisted_witness :
  configuration (invoke InsertHeader (host_of "/w/main.c" EmptyString ∅ [Some "me"]))
  = <["defaultAuthor" := "me"]> ∅
  /\ configuration (invoke InsertHeader (host_of "/w/main.c" EmptyString ∅ [None])) = ∅.
Proof.
  split.
  - destruct (proj1 (C10_author_persisted_only_when_new InsertHeader
                       (host_of "/w/main.c" EmptyString ∅ [Some "me"])
                       (or_introl eq_refl))) as [H | (a & Ha & _ & _ & _ & H)].
    + vm_compute in H. discriminate H.
    + injection Ha as <-. exact H.
  - exact (proj1 (proj2 (C10_author_persisted_only_when_new InsertHeader
                           (host_of "/w/main.c" EmptyString ∅ [None])
                           (or_introl eq_refl)) (or_introl eq_refl))).
Defined.

(** * Further properties of the pure functions *)

Section DateFormat.

Lemma years_from_In (n : nat) : forall a y : Z,
  (a <= y < a + Z.of_nat n)%Z -> In y (years_from a n).
Proof.
  induction n as [|n IH]; intros a y Hy; [lia|].
  cbn [years_from]. destruct (Z.eq_dec a y) as [->|Hne]; [left; reflexivity|].
  right. apply IH. lia.
Qed.

Lemma decimal_go_acc (d : Decimal.uint) : forall acc : positive,
  decimal_go (Pos.to_nat acc) (NilEmpty.string_of_uint d)
  = Some (Pos.to_nat (Pos.of_uint_acc d acc)).
Proof.
  induction d; intros acc; cbn [NilEmpty.string_of_uint decimal_go Pos.of_uint_acc];
    [reflexivity| ..];
    change (JS.is_digit _) with true; cbn iota;
    rewrite <- IHd; f_equal; unfold JS.code;
    rewrite ?Pos2Nat.inj_add, Pos2Nat.inj_mul;
    generalize (Pos.to_nat acc); intros n;
    match goal with
    | |- _ + ?k = _ => let v := eval vm_compute in k in change k with v
    end;
    repeat match goal with
    | |- context [Pos.to_nat ?p] =>
        let v := eval vm_compute in (Pos.to_nat p) in change (Pos.to_nat p) with v
    end;
    lia.
Qed.

Lemma decimal_go_of_uint (d : Decimal.uint) :
  decimal_go 0 (NilEmpty.string_of_uint d) = Some (N.to_nat (Pos.of_uint d)).
Proof.
  induction d; cbn [NilEmpty.string_of_uint decimal_go Pos.of_uint];
    [reflexivity| ..];
    change (JS.is_digit _) with true; cbn iota;
    first [ exact IHd
          | match goal with
            | |- _ = Some (N.to_nat (N.pos (Pos.of_uint_acc d ?k))) =>
                exact (decimal_go_acc d k)
            end ].
Qed.

Lemma year_strings_checked :
  forallb (fun y => match year_string y with
                    | String a (String b (String c (String e EmptyString))) => true
                    | _ => false
                    end) four_digit_years = true.
Proof. vm_compute. reflexivity. Qed.

Lemma pad2_checked :
  forallb (fun n => match JS.pad2 n with
                    | String a (String b EmptyString) =>
                        match decimal (JS.pad2 n) with
                        | Some k => (k =? n)%nat
                        | None => false
                        end
                    | _ => false
                    end) (seq 0 100) = true.
Proof. vm_compute. reflexivity. Qed.

Lemma year_string_four (y : Z) :
  (1000 <= y <= 9999)%Z ->
  exists a b c e,
    year_string y = String a (String b (String c (String e EmptyString)))
    /\ decimal (year_string y) = Some (Z.to_nat y).
Proof.
  intros Hy. pose proof year_strings_checked as H.
  rewrite forallb_forall in H. specialize (H y).
  assert (Hin : In y four_digit_years).
  { unfold four_digit_years. apply years_from_In. lia. }
  specialize (H Hin).
  assert (Hd : decimal_go 0 (year_string y) = Some (Z.to_nat y)).
  { destruct y as [|p|p]; try lia. unfold year_string. cbn [Z.to_int NilEmpty.string_of_int].
    rewrite decimal_go_of_uint, DecimalPos.Unsigned.of_to. reflexivity. }
  unfold decimal.
  destruct (year_string y) as [|a [|b [|c [|e [|? ?]]]]]; try discriminate H.
  eauto 10.
Qed.

Lemma pad2_two (n : nat) :
  n < 100 ->
  exists a b, JS.pad2 n = String a (String b EmptyString)
              /\ decimal (JS.pad2 n) = Some n.
Proof.
  intros Hn. pose proof pad2_checked as H.
  rewrite forallb_forall in H. specialize (H n).
  assert (Hin : In n (seq 0 100)) by (apply in_seq; lia).
  specialize (H Hin).
  destruct (JS.pad2 n) as [|a [|b [|? ?]]]; try discriminate H.
  destruct (decimal _) as [k|]; [|discriminate H].
  apply Nat.eqb_eq in H. subst k. eauto.
Qed.

End DateFormat.

(** X1: for a calendar date with a four-digit year, [formatDate] gives
    ten characters [YYYY-MM-DD], month and day padded with a zero, and
    reading the three numbers back gives the year, the month counted
    from 1 and the day. *)
Theorem X1_formatDate_reads_back :
  forall d : Date,
    plain_date d ->
    String.length (formatDate d) = 10
    /\ read_date (formatDate d)
       = Some (Z.to_nat (getFullYear d), getMonth d + 1, getDate d).
Proof.
  intros [y m dd] ((Hy1 & Hy2) & Hm & Hd1 & Hd2). simpl in *.
  destruct (year_string_four y ltac:(lia)) as (a & b & c & e & Ey & Dy).
  destruct (pad2_two (m + 1) ltac:(lia)) as (m1 & m2 & Em & Dm).
  destruct (pad2_two dd ltac:(lia)) as (d1 & d2 & Ed & Dd).
  unfold year_string in Ey, Dy.
  unfold formatDate. simpl getFullYear. simpl getMonth. simpl getDate.
  rewrite Ey in Dy |- *. rewrite Em in Dm |- *. rewrite Ed in Dd |- *.
  split; [reflexivity|].
  unfold read_date.
  change (String.substring 0 4 _) with (String a (String b (String c (String e EmptyString)))).
  change (String.substring 5 2 _) with (String m1 (String m2 EmptyString)).
  change (String.substring 8 2 _) with (String d1 (String d2 EmptyString)).
  rewrite Dy, Dm, Dd. reflexivity.
Qed.

Lemma X1_formatDate_witness :
  read_date (formatDate (mkDate 2025 9 22)) = Some (2025, 10, 22).
Proof.
  apply (X1_formatDate_reads_back (mkDate 2025 9 22)).
  unfold plain_date. simpl. lia.
Defined.

Section Identifiers.

Lemma guard_char_macro (c : ascii) : macro_char (guard_char c) = true.
Proof. destruct c as [[] [] [] [] [] [] [] []]; reflexivity. Qed.

Lemma macro_char_fixed (c : ascii) :
  macro_char c = true -> guard_char c = c.
Proof. destruct c as [[] [] [] [] [] [] [] []]; intros H; try reflexivity; discriminate H. Qed.

Lemma upper_char_alnum (c : ascii) :
  JS.is_alnum c = true -> JS.is_alnum (JS.upper_char c) = true.
Proof. destruct c as [[] [] [] [] [] [] [] []]; intros H; try reflexivity; discriminate H. Qed.

Lemma upper_char_twice (c : ascii) : JS.upper_char (JS.upper_char c) = JS.upper_char c.
Proof. destruct c as [[] [] [] [] [] [] [] []]; reflexivity. Qed.

Lemma upper_char_not_lower (c : ascii) : JS.is_lower (JS.upper_char c) = false.
Proof. destruct c as [[] [] [] [] [] [] [] []]; reflexivity. Qed.

Lemma all_chars_map (p : ascii -> bool) (f : ascii -> ascii) (s : string) :
  (forall c, p (f c) = true) -> all_chars p (JS.map_chars f s) = true.
Proof. intros H. induction s as [|c s IH]; simpl; [reflexivity | now rewrite H, IH]. Qed.

Lemma map_chars_fixed (p : ascii -> bool) (f : ascii -> ascii) (s : string) :
  (forall c, p c = true -> f c = c) -> all_chars p s = true -> JS.map_chars f s = s.
Proof.
  intros H. induction s as [|c s IH]; simpl; [reflexivity|].
  intros Hs. apply andb_true_iff in Hs as [Hc Hs]. now rewrite (H c Hc), IH.
Qed.

End Identifiers.

(** X2: a guard macro consists of upper-case letters, digits and
    underscores only, whatever the base name and the tag, and has at
    least two characters; sanitising it once more changes nothing. *)
Theorem X2_makeGuardMacro_charset :
  forall b t : string,
    all_chars macro_char (makeGuardMacro b t) = true
    /\ 2 <= String.length (makeGuardMacro b t)
    /\ JS.toUpperCase (JS.replace_class non_alnum "_"%char (makeGuardMacro b t))
       = makeGuardMacro b t.
Proof.
  intros b t.
  assert (Hall : all_chars macro_char (makeGuardMacro b t) = true).
  { rewrite makeGuardMacro_chars, all_chars_append, all_chars_map
      by apply guard_char_macro. reflexivity. }
  split; [exact Hall|]. split.
  - rewrite makeGuardMacro_chars, length_append, map_chars_length, !length_append.
    simpl. lia.
  - unfold JS.toUpperCase, JS.replace_class. rewrite map_chars_compose.
    rewrite (map_chars_ext _ guard_char) by apply guard_char_spec.
    apply (map_chars_fixed macro_char); [apply macro_char_fixed | exact Hall].
Qed.

Section ClassNameShape.

Lemma Segments_words (s : string) (ws : list string) :
  Segments s ws ->
  Forall (fun w => w <> EmptyString /\ all_chars JS.is_alnum w = true) ws.
Proof. induction 1; constructor; auto. Qed.

Lemma Segments_none (s : string) : Segments s [] -> all_chars non_alnum s = true.
Proof. intros H. now inversion H. Qed.

Lemma capitalize_alnum (w : string) :
  all_chars JS.is_alnum w = true -> all_chars JS.is_alnum (capitalize w) = true.
Proof.
  destruct w as [|c w]; [auto|]. simpl. intros H.
  apply andb_true_iff in H as [Hc Hw]. now rewrite (upper_char_alnum _ Hc), Hw.
Qed.

Lemma join_words_alnum (ws : list string) :
  Forall (fun w => w <> EmptyString /\ all_chars JS.is_alnum w = true) ws ->
  all_chars JS.is_alnum (JS.join EmptyString (List.map capitalize ws)) = true.
Proof.
  intros H. apply join_all_chars; [reflexivity|].
  induction H as [|w ws [_ Hw] _ IH]; simpl; constructor; auto.
  now apply capitalize_alnum.
Qed.

Lemma join_words_head (w : string) (ws : list string) :
  exists rest,
    JS.join EmptyString (List.map capitalize (w :: ws)) = capitalize w ++ rest
    /\ (Forall (fun w => w <> EmptyString /\ all_chars JS.is_alnum w = true) ws ->
        all_chars JS.is_alnum rest = true).
Proof.
  destruct ws as [|w' ws].
  - exists EmptyString. split; [symmetry; apply append_nil_r | reflexivity].
  - exists (JS.join EmptyString (List.map capitalize (w' :: ws))). split.
    + reflexivity.
    + apply join_words_alnum.
Qed.

(** The class name of a string with segments: a capital first, then
    letters and digits. *)
Lemma toClassName_shape (s : string) :
  toClassName s = EmptyString /\ all_chars non_alnum s = true
  \/ exists c rest,
       toClassName s = String (JS.upper_char c) rest
       /\ JS.is_alnum c = true
       /\ all_chars JS.is_alnum rest = true.
Proof.
  pose proof (Segments_total s) as Hseg.
  rewrite toClassName_pieces, (pieces_Segments _ _ Hseg).
  pose proof (Segments_words _ _ Hseg) as Hws.
  destruct (segments_of s) as [|w ws].
  - left. split; [reflexivity | now apply Segments_none].
  - right. inversion Hws as [|? ? [Hne Hw] Hrest]; subst.
    destruct (join_words_head w ws) as (rest & -> & Hr).
    destruct w as [|c w]; [congruence|].
    simpl in Hw. apply andb_true_iff in Hw as [Hc Hw].
    exists c, (w ++ rest). split; [reflexivity|]. split; [exact Hc|].
    now rewrite all_chars_append, Hw, Hr.
Qed.

Lemma alnum_not_all_sep (c : ascii) (s : string) :
  JS.is_alnum c = true -> all_chars non_alnum (String c s) = false.
Proof. intros H. simpl. unfold non_alnum at 1. now rewrite H. Qed.

End ClassNameShape.

(** X3: a class name consists of letters and digits only and does not
    begin with a lower-case letter; it is empty exactly when the base
    name has no letter or digit; and taking the class name of a class
    name changes nothing. *)
Theorem X3_toClassName_identifier :
  forall s : string,
    all_chars JS.is_alnum (toClassName s) = true
    /\ (forall c rest, toClassName s = String c rest -> JS.is_lower c = false)
    /\ (toClassName s = EmptyString <-> all_chars non_alnum s = true)
    /\ toClassName (toClassName s) = toClassName s.
Proof.
  intros s.
  destruct (toClassName_shape s) as [[E Hsep] | (c & rest & E & Hc & Hrest)].
  - rewrite E. repeat split; auto; try discriminate.
  - assert (Hall : all_chars JS.is_alnum (toClassName s) = true).
    { rewrite E. simpl. now rewrite (upper_char_alnum _ Hc), Hrest. }
    split; [exact Hall|]. split; [|split].
    + intros c' rest' E'. rewrite E in E'. injection E' as <- _.
      apply upper_char_not_lower.
    + split.
      * rewrite E. discriminate.
      * intros Hsep. exfalso.
        pose proof (pieces_only_seps _ Hsep) as Hp.
        rewrite toClassName_pieces, Hp in E. discriminate E.
    + assert (Hseg : Segments (toClassName s) [toClassName s]).
      { rewrite <- (append_nil_r (toClassName s)) at 1.
        apply (Segments_word EmptyString (toClassName s) EmptyString []);
          try reflexivity; try exact Hall.
        - rewrite E. discriminate.
        - now constructor. }
      rewrite (toClassName_pieces (toClassName s)), (pieces_Segments _ _ Hseg).
      rewrite E. simpl. now rewrite upper_char_twice.
Qed.

(** * Detection recognises what the builders produce *)

Section BuiltHeaders.

Lemma split_line (l r : string) :
  one_line l = true ->
  JS.split "010"%char (l ++ String "010"%char r) = l :: JS.split "010"%char r.
Proof.
  unfold one_line. induction l as [|c l IH]; intros H.
  - reflexivity.
  - simpl in H. apply andb_true_iff in H as [Hc Hl].
    change (String c l ++ String "010"%char r) with (String c (l ++ String "010"%char r)).
    simpl. apply negb_true_iff in Hc. rewrite Hc, (IH Hl). reflexivity.
Qed.

Lemma first_lines_head (n : nat) (l r : string) :
  one_line l = true ->
  first_lines (S (S n)) (l ++ newline ++ r) = l ++ newline ++ first_lines (S n) r.
Proof.
  intros H. unfold first_lines.
  change (l ++ newline ++ r) with (l ++ String "010"%char r).
  rewrite (split_line _ _ H).
  destruct (JS.split "010"%char r) as [|x xs] eqn:E; [now apply split_nonnil in E|].
  reflexivity.
Qed.

Lemma Contains_first_line (needle l r : string) (n : nat) :
  one_line l = true -> Contains needle l ->
  Contains needle (first_lines (S (S n)) (l ++ newline ++ r)).
Proof. intros Hl Hc. rewrite first_lines_head by exact Hl. now apply Contains_append_l. Qed.

Lemma Contains_second_line (needle l1 l2 r : string) (n : nat) :
  one_line l1 = true -> one_line l2 = true -> Contains needle l2 ->
  Contains needle (first_lines (S (S (S n))) (l1 ++ newline ++ l2 ++ newline ++ r)).
Proof.
  intros H1 H2 Hc. rewrite first_lines_head by exact H1.
  apply Contains_append_r, Contains_append_r. now apply Contains_first_line.
Qed.

(** The first line of a frame is a border, whatever the style. *)
Lemma frame_first_line (style : string) (fields : list string) :
  exists l more,
    JS.join newline (frame style fields) = l ++ newline ++ more
    /\ one_line l = true
    /\ Contains "===" l.
Proof.
  assert (Hb : forall p, Contains "===" (p ++ border_top)).
  { intros p. apply Contains_append_r. exists EmptyString, (JS.repeat_char "="%char 43).
    reflexivity. }
  unfold frame.
  destruct (String.eqb style "hash"); [|destruct (String.eqb style "cpp")].
  - cbn [List.map app]. destruct (app fields [border_bottom]) as [|x xs] eqn:E.
    { now apply app_cons_not_nil in E || (symmetry in E; apply app_cons_not_nil in E). }
    eexists _, _. split; [reflexivity|]. split; [reflexivity | apply Hb].
  - cbn [List.map app]. destruct (app fields [border_bottom]) as [|x xs] eqn:E.
    { now apply app_cons_not_nil in E || (symmetry in E; apply app_cons_not_nil in E). }
    eexists _, _. split; [reflexivity|]. split; [reflexivity | apply Hb].
  - cbn [app]. destruct (app (List.map _ fields) _) as [|x xs] eqn:E.
    { now apply app_cons_not_nil in E || (symmetry in E; apply app_cons_not_nil in E). }
    eexists _, _. split; [reflexivity|]. split; [reflexivity | apply Hb].
Qed.

Lemma framed_detected (style : string) (fields : list string) (rest : string) :
  hasHeaderAtTop ((JS.join newline (frame style fields) ++ newline ++ newline) ++ rest)
  = true.
Proof.
  destruct (frame_first_line style fields) as (l & more & -> & Hl & Hc).
  apply hasHeaderAtTop_signature. right. right.
  rewrite !append_assoc. now apply Contains_first_line.
Qed.

Lemma shebang_framed_detected (style : string) (fields : list string) (rest : string) :
  hasHeaderAtTop
    (shebang_line ++ (JS.join newline (frame style fields) ++ newline ++ newline) ++ rest)
  = true.
Proof.
  destruct (frame_first_line style fields) as (l & more & -> & Hl & Hc).
  apply hasHeaderAtTop_signature. right. right.
  unfold shebang_line. rewrite !append_assoc.
  now apply Contains_second_line.
Qed.

End BuiltHeaders.

(** X4: a text that begins with a comment block of either variant, in
    any style, with or without the shebang line before it, is found to
    have a header. *)
Theorem X4_built_header_is_detected :
  forall (f : string) (d a dt : JS.value) (style rest : string),
    hasHeaderAtTop (makeCommentBlock f d a dt style ++ rest) = true
    /\ hasHeaderAtTop (Legacy.makeCommentBlock f d a dt ++ rest) = true
    /\ hasHeaderAtTop (shebang_line ++ makeCommentBlock f d a dt style ++ rest) = true.
Proof.
  intros f d a dt style0 rest. split; [|split].
  - rewrite makeCommentBlock_frame. apply framed_detected.
  - rewrite legacy_makeCommentBlock_frame. apply framed_detected.
  - rewrite makeCommentBlock_frame. apply shebang_framed_detected.
Qed.

(** X5: without a shebang at the start of the trimmed first eight
    lines, the answer of [hasHeaderAtTop] depends on the first eight
    lines only. *)
Theorem X5_no_shebang_eight_lines :
  forall t1 t2 : string,
    take 8 (JS.split "010"%char t1) = take 8 (JS.split "010"%char t2) ->
    ~ StartsWith "#!" (JS.trim (first_lines 8 t1)) ->
    hasHeaderAtTop t1 = hasHeaderAtTop t2.
Proof.
  intros t1 t2 H8 Hno. rewrite !hasHeaderAtTop_tests. unfold signature_tests.
  rewrite <- (first_lines_take 8 t1 t2 H8).
  destruct (Regex.test_start re_shebang (JS.trim (first_lines 8 t1))) eqn:E.
  - exfalso. apply Hno. now apply test_start_Lit.
  - reflexivity.
Qed.

Lemma X5_no_shebang_witness :
  hasHeaderAtTop (JS.repeat_char "010"%char 8 ++ "===")
  = hasHeaderAtTop (JS.repeat_char "010"%char 8 ++ "int x;").
Proof.
  apply X5_no_shebang_eight_lines; [reflexivity|].
  intros [rest H]. vm_compute in H. discriminate H.
Defined.

(** * Further properties of the entry points *)

(** X6: without a document the commands give their warning and do
    nothing else; the insertions on creation do nothing at all. *)
Theorem X6_no_document :
  forall (ep : EntryPoint) (h : Host),
    document h = None ->
    new_events ep h = (if is_command ep then [no_editor_warning] else [])
    /\ document (invoke ep h) = None
    /\ configuration (invoke ep h) = configuration h
    /\ answers (invoke ep h) = answers h.
Proof.
  intros ep h Hdoc. destruct ep; enter h; fresh_events; auto.
Qed.

Lemma X6_no_document_witness :
  new_events InsertHeader (mkHost None ∅ ∅ (mkDate 2025 9 22) [] true [])
  = [no_editor_warning].
Proof.
  exact (proj1 (X6_no_document InsertHeader
                  (mkHost None ∅ ∅ (mkDate 2025 9 22) [] true []) eq_refl)).
Defined.

Section Outcome.

(** What an invocation leaves in the document: the inserted text, if
    any, before the text that was there. *)
Lemma document_after (ep : EntryPoint) (h : Host) (d : TextDocument) :
  document h = Some d ->
  (inserted_texts (new_events ep h) = []
   /\ document (invoke ep h) = Some d)
  \/ exists t,
       inserted_texts (new_events ep h) = [t]
       /\ document (invoke ep h)
          = Some (mkDocument (fileName d) (uri_fsPath d) (uri_path d) (t ++ getText d)).
Proof.
  intros Hdoc. destruct ep; enter h; repeat branch; fresh_events; eauto.
Qed.

End Outcome.

(** The conditions of the branches against what is known of [inserts]. *)
Ltac clash :=
  solve [ repeat match goal with
                 | H : ?b = _, Hi : context [?b] |- _ => rewrite H in Hi
                 end;
          cbn in *; congruence ].

(** X7: an invocation leaves the document with its inserted text, at
    most one, before the text that was there; the name of the document
    stays. *)
Theorem X7_insertion_keeps_the_text :
  forall (ep : EntryPoint) (h : Host) (d : TextDocument),
    document h = Some d ->
    exists d',
      document (invoke ep h) = Some d'
      /\ fileName d' = fileName d
      /\ uri_fsPath d' = uri_fsPath d
      /\ uri_path d' = uri_path d
      /\ getText d'
         = String.concat EmptyString (inserted_texts (new_events ep h)) ++ getText d
      /\ List.length (inserted_texts (new_events ep h)) <= 1.
Proof.
  intros ep h d Hdoc.
  destruct (document_after ep h d Hdoc) as [[-> ->] | (t & -> & ->)].
  - exists d. repeat split; auto.
  - eexists. repeat split; auto.
Qed.

Lemma X7_insertion_witness :
  exists d',
    document (invoke AutoInsertHeader (host_of "/w/a.c" EmptyString ∅ [])) = Some d'
    /\ fileName d' = "/w/a.c".
Proof.
  destruct (X7_insertion_keeps_the_text AutoInsertHeader
              (host_of "/w/a.c" EmptyString ∅ [])
              (mkDocument "/w/a.c" "/w/a.c" "/w/a.c" EmptyString) eq_refl)
    as (d' & Hd & Hf & _).
  exists d'. split; [exact Hd | exact Hf].
Defined.

Section WhenInserted.

Lemma inserts_one (ep : EntryPoint) (h : Host) (d : TextDocument) :
  document h = Some d ->
  inserts ep d = true -> exists t, inserted_texts (new_events ep h) = [t].
Proof.
  intros Hdoc Hi. destruct ep; enter h; unfold inserts in Hi; cbn in Hi;
    repeat branch; fresh_events; eauto; clash.
Qed.

Lemma inserts_none (ep : EntryPoint) (h : Host) (d : TextDocument) :
  document h = Some d ->
  inserts ep d = false -> inserted_texts (new_events ep h) = [].
Proof.
  intros Hdoc Hi. destruct ep; enter h; unfold inserts in Hi; cbn in Hi;
    repeat branch; fresh_events; eauto; clash.
Qed.

End WhenInserted.

(** X8: an entry point inserts exactly one text when [inserts] holds of
    the document (a supported extension for the legacy command, no
    header for the current command, a blank document for the
    insertions on creation) and otherwise inserts nothing and leaves
    the document as it is. *)
Theorem X8_inserts_exactly_when :
  forall (ep : EntryPoint) (h : Host) (d : TextDocument),
    document h = Some d ->
    (inserts ep d = true -> exists t, inserted_texts (new_events ep h) = [t])
    /\ (inserts ep d = false ->
        inserted_texts (new_events ep h) = [] /\ document (invoke ep h) = Some d).
Proof.
  intros ep h d Hdoc. split.
  - now apply inserts_one.
  - intros Hi. pose proof (inserts_none ep h d Hdoc Hi) as Hnone.
    split; [exact Hnone|].
    destruct (document_after ep h d Hdoc) as [[_ Hd] | (t & Ht & _)]; [exact Hd|].
    rewrite Hnone in Ht. discriminate Ht.
Qed.

Lemma X8_inserts_witness :
  inserted_texts (new_events LegacyInsertHeader (host_of "/w/tool.py" EmptyString ∅ []))
  = []
  /\ exists t,
       inserted_texts (new_events InsertHeader (host_of "/w/tool.py" EmptyString ∅ []))
       = [t].
Proof.
  split.
  - exact (proj1 (proj2 (X8_inserts_exactly_when LegacyInsertHeader
                           (host_of "/w/tool.py" EmptyString ∅ [])
                           (mkDocument "/w/tool.py" "/w/tool.py" "/w/tool.py" EmptyString)
                           eq_refl) eq_refl)).
  - exact (proj1 (X8_inserts_exactly_when InsertHeader
                    (host_of "/w/tool.py" EmptyString ∅ [])
                    (mkDocument "/w/tool.py" "/w/tool.py" "/w/tool.py" EmptyString)
                    eq_refl) eq_refl).
Defined.

Section Idempotence.

Lemma block_detected (f : string) (d a dt : JS.value) (style rest : string) :
  hasHeaderAtTop (makeCommentBlock f d a dt style ++ rest) = true.
Proof. rewrite makeCommentBlock_frame. apply framed_detected. Qed.

Lemma legacy_block_detected (f : string) (d a dt : JS.value) (rest : string) :
  hasHeaderAtTop (Legacy.makeCommentBlock f d a dt ++ rest) = true.
Proof. rewrite legacy_makeCommentBlock_frame. apply framed_detected. Qed.

Lemma shebang_block_detected (f : string) (d a dt : JS.value) (style rest : string) :
  hasHeaderAtTop (shebang_line ++ makeCommentBlock f d a dt style ++ rest) = true.
Proof. rewrite makeCommentBlock_frame. apply shebang_framed_detected. Qed.

Lemma generated_detected (det : Detected) (f : string) (d a dt : JS.value)
  (style more rest : string) :
  hasHeaderAtTop (with_shebang det (makeCommentBlock f d a dt style ++ more) ++ rest)
  = true.
Proof.
  unfold with_shebang. destruct (shebang det); rewrite !append_assoc.
  - apply shebang_block_detected.
  - apply block_detected.
Qed.

(** Whatever an entry point inserts makes a text with a header. *)
Lemma inserted_has_header (ep : EntryPoint) (h : Host) (d : TextDocument)
  (t rest : string) :
  document h = Some d ->
  In t (inserted_texts (new_events ep h)) ->
  hasHeaderAtTop (t ++ rest) = true.
Proof.
  intros Hdoc. destruct ep; enter h; repeat branch; fresh_events;
    (intros [<-|[]] || tauto);
    repeat match goal with
           | |- context [additions ?id ?c] =>
               let r := fresh "r" in destruct (additions_around id c) as [r ->]
           end;
    rewrite ?append_assoc;
    first [ apply legacy_block_detected
          | apply generated_detected
          | rewrite <- (append_nil_r (makeCommentBlock _ _ _ _ _));
            apply generated_detected ].
Qed.

(** On a document with a header the current entry points insert nothing. *)
Lemma existing_header_none (ep : EntryPoint) (h : Host) (d : TextDocument) :
  ep <> LegacyInsertHeader ->
  document h = Some d ->
  hasHeaderAtTop (getText d) = true ->
  inserted_texts (new_events ep h) = [] /\ document (invoke ep h) = Some d.
Proof.
  intros Hep Hdoc Hheader. destruct ep; [congruence | | |].
  - apply inserts_none with (ep := InsertHeader) in Hdoc as Hnone;
      [|unfold inserts; now rewrite Hheader].
    split; [exact Hnone|].
    destruct (document_after InsertHeader h d Hdoc) as [[_ Hd] | (t & Ht & _)];
      [exact Hd|]. rewrite Hnone in Ht. discriminate Ht.
  - pose proof (auto_existing h d Hdoc Hheader) as E.
    rewrite (new_events_same _ _ E), E. auto.
  - pose proof (interactive_existing h d Hdoc Hheader) as E.
    rewrite (new_events_same _ _ E), E. auto.
Qed.

End Idempotence.

(** X9: after an entry point has inserted its text, the document is
    found to have a header, and a further invocation of an entry point
    of the current variant inserts nothing and leaves the document as
    it is. *)
Theorem X9_no_second_header :
  forall (first second : EntryPoint) (h : Host) (d : TextDocument),
    document h = Some d ->
    inserts first d = true ->
    second <> LegacyInsertHeader ->
    (exists d1,
       document (invoke first h) = Some d1
       /\ hasHeaderAtTop (getText d1) = true)
    /\ inserted_texts (new_events second (invoke first h)) = []
    /\ document (invoke second (invoke first h)) = document (invoke first h).
Proof.
  intros ep1 ep2 h d Hdoc Hi Hep.
  destruct (inserts_one ep1 h d Hdoc Hi) as [t Ht].
  destruct (document_after ep1 h d Hdoc) as [[Hnone _] | (t' & Ht' & Hd1)].
  { rewrite Hnone in Ht. discriminate Ht. }
  rewrite Ht in Ht'. injection Ht' as <-.
  assert (Hh : hasHeaderAtTop (t ++ getText d) = true).
  { apply (inserted_has_header ep1 h d t (getText d) Hdoc). rewrite Ht. now left. }
  split.
  - eexists. split; [exact Hd1 | exact Hh].
  - destruct (existing_header_none ep2 (invoke ep1 h) _ Hep Hd1 Hh) as [Hn Hd2].
    split; [exact Hn|]. now rewrite Hd2, Hd1.
Qed.

Lemma X9_no_second_header_witness :
  inserted_texts
    (new_events InsertHeader
       (invoke AutoInsertHeader (host_of "/w/a.c" EmptyString ∅ []))) = [].
Proof.
  exact (proj1 (proj2 (X9_no_second_header AutoInsertHeader InsertHeader
                         (host_of "/w/a.c" EmptyString ∅ [])
                         (mkDocument "/w/a.c" "/w/a.c" "/w/a.c" EmptyString)
                         eq_refl eq_refl ltac:(discriminate)))).
Defined.

(** X10: on an extension other than c, h, hpp and cpp the legacy
    command asks for author and description, then tells that the
    extension is not supported; the document and the settings stay as
    they are. *)
Theorem X10_legacy_unsupported :
  forall (h : Host) (d : TextDocument),
    document h = Some d ->
    inserts LegacyInsertHeader d = false ->
    new_events LegacyInsertHeader h
    = [author_prompt (environment_author h) (answer 0 h);
       description_prompt (answer 1 h);
       unsupported_notice (extNoDot (identity_of_editor d))]
    /\ document (invoke LegacyInsertHeader h) = Some d
    /\ configuration (invoke LegacyInsertHeader h) = configuration h.
Proof.
  intros h d Hdoc Hi. unfold environment_author. enter h.
  unfold inserts in Hi; cbn in Hi.
  repeat branch; try clash. fresh_events.
  split; [|split; reflexivity]. coming_cases; reflexivity.
Qed.

Lemma X10_legacy_unsupported_witness :
  new_events LegacyInsertHeader (host_of "/w/tool.py" EmptyString ∅ [Some "me"])
  = [author_prompt "dan" (Some "me"); description_prompt None; unsupported_notice "py"].
Proof.
  exact (proj1 (X10_legacy_unsupported
                  (host_of "/w/tool.py" EmptyString ∅ [Some "me"])
                  (mkDocument "/w/tool.py" "/w/tool.py" "/w/tool.py" EmptyString)
                  eq_refl eq_refl)).
Defined.

(** X11: a command on a document always ends with one notice: that the
    header was inserted when it inserted, else that a header exists
    (current command) or that the extension is not supported (legacy
    command); the insertions on creation never show a notice. *)
Theorem X11_closing_notice :
  forall (ep : EntryPoint) (h : Host) (d : TextDocument),
    document h = Some d ->
    if is_command ep
    then List.last (new_events ep h) inserted_notice = closing_notice ep d
         /\ List.length (List.filter is_notice (new_events ep h)) = 1
    else Forall (fun e => is_notice e = false) (new_events ep h).
Proof.
  intros ep h d Hdoc. unfold closing_notice.
  destruct ep; cbn [is_command].
  - destruct (inserts LegacyInsertHeader d) eqn:Hi; enter h;
      unfold inserts in Hi; cbn in Hi;
      repeat branch; try clash; fresh_events; split; reflexivity.
  - destruct (inserts InsertHeader d) eqn:Hi; enter h;
      unfold inserts in Hi; cbn in Hi;
      repeat branch; try clash; fresh_events; split; reflexivity.
  - enter h. repeat branch; fresh_events; repeat constructor.
  - enter h. repeat branch; fresh_events; repeat constructor.
Qed.

Lemma X11_closing_notice_witness :
  List.last (new_events InsertHeader (host_of "/w/a.c" EmptyString ∅ [])) inserted_notice
  = inserted_notice.
Proof.
  exact (proj1 (X11_closing_notice InsertHeader
                  (host_of "/w/a.c" EmptyString ∅ [])
                  (mkDocument "/w/a.c" "/w/a.c" "/w/a.c" EmptyString) eq_refl)).
Defined.

#[local] Arguments prompts_shown : simpl never.

(** Using the conditions of the branches taken. *)
Ltac known_conditions :=
  repeat match goal with
         | H : String.eqb _ _ = false |- _ => rewrite ?H; clear H
         | H : String.eqb _ _ = true |- _ => apply String.eqb_eq in H; rewrite ?H
         | H : negb _ = _ |- _ => apply (f_equal negb) in H; rewrite negb_involutive in H;
                                  cbn in H
         end;
  cbn.

(** X12: the number of prompts an entry point shows depends on the
    document only: two for a command, three when the extension is h or
    hpp, whether or not it inserts afterwards; none for the insertion
    without prompts; two for the interactive insertion on creation into
    a blank document and none otherwise.  Each prompt takes one of the
    coming answers. *)
Theorem X12_prompts_shown :
  forall (ep : EntryPoint) (h : Host) (d : TextDocument),
    document h = Some d ->
    count_prompts (new_events ep h) = prompts_shown ep d
    /\ answers (invoke ep h) = drop (prompts_shown ep d) (answers h).
Proof.
  intros ep h d Hdoc. unfold count_prompts.
  destruct ep; enter h; repeat branch; fresh_events;
    unfold prompts_shown, guard_asked; known_conditions;
    (split; [reflexivity | coming_cases; reflexivity]).
Qed.

Lemma X12_prompts_shown_witness :
  count_prompts (new_events InsertHeader (host_of "/w/a.h" bordered ∅ [])) = 3.
Proof.
  exact (proj1 (X12_prompts_shown InsertHeader
                  (host_of "/w/a.h" bordered ∅ [])
                  (mkDocument "/w/a.h" "/w/a.h" "/w/a.h" bordered) eq_refl)).
Defined.

Section Settings.

Lemma orElse_truthy (a dflt : string) : a <> EmptyString -> JS.orElse (Some a) dflt = a.
Proof. destruct a; [congruence | reflexivity]. Qed.

End Settings.

(** X13: when an interactive path inserts, the answered author is not
    empty and differs from the stored one, and the settings do not
    accept the write, the failure is logged on the console and nothing
    else changes: the settings stay as they are, the header is inserted
    all the same, and the command still ends with its notice. *)
Theorem X13_settings_write_failure :
  forall (ep : EntryPoint) (h : Host) (d : TextDocument) (a : string),
    ep = InsertHeader \/ ep = InteractiveInsertOnCreate ->
    document h = Some d ->
    inserts ep d = true ->
    settings_writable h = false ->
    answer 0 h = Some a ->
    a <> EmptyString ->
    configuration h !! "defaultAuthor" <> Some a ->
    In save_failed (new_events ep h)
    /\ configuration (invoke ep h) = configuration h
    /\ (exists t, inserted_texts (new_events ep h) = [t])
    /\ (ep = InsertHeader -> List.last (new_events ep h) save_failed = inserted_notice).
Proof.
  intros ep h d a Hep Hdoc Hi Hw Ha Hnz Hne.
  destruct Hep as [-> | ->]; enter h; unfold inserts in Hi; cbn in Hi;
    destruct coming as [|a0 coming]; try discriminate Ha; cbn in Ha; subst a0;
    repeat branch; try clash; fresh_events;
    try (split; [cbn; repeat (first [left; reflexivity | right]) |];
         split; [reflexivity|]; split; [eauto|];
         first [intros _; reflexivity | discriminate]).
  all: exfalso;
    match goal with
    | H : _ && bool_decide _ = false |- _ =>
        destruct a; [congruence|]; cbn in H;
        apply bool_decide_eq_false in H; apply H; congruence
    end.
Qed.

Lemma X13_settings_write_failure_witness :
  In save_failed
    (new_events InsertHeader
       (mkHost (Some (mkDocument "/w/a.c" "/w/a.c" "/w/a.c" EmptyString)) ∅ ∅
          (mkDate 2025 9 22) [Some "me"] false [])).
Proof.
  refine (proj1 (X13_settings_write_failure InsertHeader
                   (mkHost (Some (mkDocument "/w/a.c" "/w/a.c" "/w/a.c" EmptyString)) ∅ ∅
                      (mkDate 2025 9 22) [Some "me"] false [])
                   (mkDocument "/w/a.c" "/w/a.c" "/w/a.c" EmptyString) "me"
                   (or_introl eq_refl) eq_refl eq_refl eq_refl eq_refl _ _));
    discriminate.
Defined.

(** X14: when an interactive path inserts and the settings accept
    writes, a non-empty answer to the author prompt is the stored
    default author afterwards, and so the value the next author prompt
    proposes; no other setting changes. *)
Theorem X14_author_round_trip :
  forall (ep : EntryPoint) (h : Host) (d : TextDocument) (a : string),
    ep = InsertHeader \/ ep = InteractiveInsertOnCreate ->
    document h = Some d ->
    inserts ep d = true ->
    settings_writable h = true ->
    answer 0 h = Some a ->
    a <> EmptyString ->
    configuration (invoke ep h) !! "defaultAuthor" = Some a
    /\ default_author (invoke ep h) = a
    /\ (forall key, key <> "defaultAuthor" ->
          configuration (invoke ep h) !! key = configuration h !! key).
Proof.
  intros ep h d a Hep Hdoc Hi Hw Ha Hnz.
  assert (Hcfg : configuration (invoke ep h) = configuration h
                 /\ configuration h !! "defaultAuthor" = Some a
                 \/ configuration (invoke ep h) = <["defaultAuthor" := a]> (configuration h)).
  { destruct Hep as [-> | ->]; enter h; unfold inserts in Hi; cbn in Hi;
      destruct coming as [|a0 coming]; try discriminate Ha; cbn in Ha; subst a0;
      repeat branch; try clash; auto.
    all: left; split; [reflexivity|];
      match goal with
      | H : _ && bool_decide _ = false |- _ =>
          destruct a; [congruence|]; cbn in H;
          apply bool_decide_eq_false in H;
          match goal with
          | |- ?x = ?y => destruct (decide (x = y)) as [E|E]; [exact E|]
          end;
          exfalso; apply H; congruence
      end. }
  assert (Hlook : configuration (invoke ep h) !! "defaultAuthor" = Some a).
  { destruct Hcfg as [[-> E] | ->]; [exact E | apply lookup_insert_eq]. }
  split; [exact Hlook|]. split.
  - unfold default_author. rewrite Hlook. now apply orElse_truthy.
  - intros key Hkey. destruct Hcfg as [[-> _] | ->]; [reflexivity|].
    now apply lookup_insert_ne.
Qed.

Lemma X14_author_round_trip_witness :
  default_author (invoke InsertHeader (host_of "/w/a.c" EmptyString ∅ [Some "me"])) = "me".
Proof.
  refine (proj1 (proj2 (X14_author_round_trip InsertHeader
                          (host_of "/w/a.c" EmptyString ∅ [Some "me"])
                          (mkDocument "/w/a.c" "/w/a.c" "/w/a.c" EmptyString) "me"
                          (or_introl eq_refl) eq_refl eq_refl eq_refl eq_refl _)));
    discriminate.
Defined.

Section Guards.





End Guards.




Section Openings.

Lemma frame_opening (style : string) (fields : list string) :
  String.eqb style "cpp" = false ->
  exists more,
    JS.join newline (frame style fields)
    = ((if String.eqb style "hash" then "# " else "/**") ++ border_top ++ newline) ++ more.
Proof.
  intros Hcpp. unfold frame. rewrite Hcpp.
  destruct (String.eqb style "hash").
  - cbn [List.map app]. destruct (app fields [border_bottom]) as [|x xs] eqn:E.
    { symmetry in E. now apply app_cons_not_nil in E. }
    eexists. cbn [List.map]. unfold JS.join; fold JS.join.
    rewrite !append_assoc. reflexivity.
  - cbn [app]. destruct (app (List.map _ fields) _) as [|x xs] eqn:E.
    { symmetry in E. now apply app_cons_not_nil in E. }
    eexists. unfold JS.join; fold JS.join. rewrite !append_assoc. reflexivity.
Qed.

Lemma StartsWith_append (p s more : string) : StartsWith p s -> StartsWith p (s ++ more).
Proof. intros [r ->]. exists (r ++ more). now rewrite append_assoc. Qed.

Lemma block_opening (f : string) (d a dt : JS.value) (style : string) :
  String.eqb style "cpp" = false ->
  StartsWith ((if String.eqb style "hash" then "# " else "/**") ++ border_top ++ newline)
    (makeCommentBlock f d a dt style).
Proof.
  intros Hcpp. rewrite makeCommentBlock_frame.
  destruct (frame_opening style (field_lines pad16 f d a dt) Hcpp) as [more ->].
  apply StartsWith_append. now exists more.
Qed.

Lemma legacy_block_opening (f : string) (d a dt : JS.value) :
  StartsWith ("/**" ++ border_top ++ newline) (Legacy.makeCommentBlock f d a dt).
Proof.
  rewrite legacy_makeCommentBlock_frame.
  destruct (frame_opening "block" (field_lines pad15 f d a dt) eq_refl) as [more ->].
  apply StartsWith_append. now exists more.
Qed.

Lemma detectStyle_cases (e b : string) :
  detectStyle e b = mkDetected "hash" true
  \/ detectStyle e b = mkDetected "hash" false
  \/ detectStyle e b = mkDetected "block" false.
Proof.
  unfold detectStyle.
  destruct (String.eqb e "py"); [auto|].
  destruct (String.eqb e EmptyString && String.eqb (JS.toLowerCase b) "makefile"); auto.
Qed.

Lemma detectStyle_not_cpp (e b : string) :
  String.eqb (style (detectStyle e b)) "cpp" = false.
Proof. destruct (detectStyle_cases e b) as [-> | [-> | ->]]; reflexivity. Qed.

Lemma generated_opening (det : Detected) (f : string) (d a dt : JS.value) (more : string) :
  String.eqb (style det) "cpp" = false ->
  StartsWith (opening det)
    (with_shebang det (makeCommentBlock f d a dt (style det) ++ more)).
Proof.
  intros Hcpp. destruct (block_opening f d a dt (style det) Hcpp) as [r Hr].
  unfold opening, with_shebang. rewrite Hr. destruct (shebang det).
  - exists (r ++ more). now rewrite !append_assoc.
  - exists (r ++ more). now rewrite !append_assoc.
Qed.

End Openings.

(** X16: whatever an entry point inserts begins with the opening of
    the detected style: the shebang line and a hash border for the
    extension py, a hash border for a file without extension whose
    name is makefile in any letter case, and the block border otherwise
    and always for the legacy command; the style of double slashes is
    never used. *)
Theorem X16_opening_by_file_kind :
  (forall (ep : EntryPoint) (h : Host) (d : TextDocument) (t : string),
     document h = Some d ->
     In t (inserted_texts (new_events ep h)) ->
     StartsWith (opening (detected_by ep d)) t)
  /\ (forall b, opening (detectStyle "py" b)
                = "#!/usr/bin/env python3" ++ newline ++ "# " ++ border_top ++ newline)
  /\ (forall b, JS.toLowerCase b = "makefile" ->
                opening (detectStyle EmptyString b) = "# " ++ border_top ++ newline)
  /\ (forall e b, e <> "py" ->
                  (e <> EmptyString \/ JS.toLowerCase b <> "makefile") ->
                  opening (detectStyle e b) = "/**" ++ border_top ++ newline).
Proof.
  split; [|split; [|split]].
  - intros ep h d t Hdoc. unfold detected_by.
    destruct ep; enter h; repeat branch; fresh_events;
      (intros [<-|[]] || tauto);
      repeat match goal with
             | |- context [additions ?id ?c] =>
                 let r := fresh "r" in destruct (additions_around id c) as [r ->]
             end;
      first [ apply StartsWith_append, legacy_block_opening
            | apply legacy_block_opening
            | apply generated_opening, detectStyle_not_cpp
            | rewrite <- (append_nil_r (makeCommentBlock _ _ _ _ _));
              apply generated_opening, detectStyle_not_cpp ].
  - reflexivity.
  - intros b Hb. unfold detectStyle. rewrite Hb. reflexivity.
  - intros e b Hpy Hmk. unfold detectStyle.
    apply String.eqb_neq in Hpy. rewrite Hpy.
    destruct Hmk as [He | Hb].
    + apply String.eqb_neq in He. rewrite He. reflexivity.
    + apply String.eqb_neq in Hb. rewrite Hb, andb_false_r. reflexivity.
Qed.

Lemma X16_opening_witness :
  opening (detectStyle EmptyString "MakeFile") = "# " ++ border_top ++ newline
  /\ opening (detectStyle "rs" "main.rs") = "/**" ++ border_top ++ newline.
Proof.
  split.
  - exact (proj1 (proj2 (proj2 X16_opening_by_file_kind)) "MakeFile" eq_refl).
  - refine (proj2 (proj2 (proj2 X16_opening_by_file_kind)) "rs" "main.rs" _ (or_introl _));
      discriminate.
Defined.

(** * The handler of created files *)

Section CreatedFiles.

(** The interactive insertion ends without an exception. *)
Lemma interactive_ends (h : Host) :
  exists c,
    interactiveInsertForCreatedDocument h = (c, invoke InteractiveInsertOnCreate h)
    /\ (c = Normal tt \/ c = Returned).
Proof.
  destruct (document h) as [d|] eqn:Hdoc; enter h; repeat branch; eauto.
Qed.

Lemma handler_opened (d : TextDocument) (rest : list (option TextDocument)) (h : Host) :
  run (onDidCreateFiles (Some d :: rest)) h
  = run (onDidCreateFiles rest)
      (invoke InteractiveInsertOnCreate (with_document (Some d) h)).
Proof.
  unfold run. cbn [onDidCreateFiles]. unfold bind at 1, try_catch, bind at 1.
  unfold openTextDocument, call.
  destruct (interactive_ends (with_document (Some d) h)) as (c & -> & [-> | ->]);
    reflexivity.
Qed.

Lemma handler_unopened (rest : list (option TextDocument)) (h : Host) :
  run (onDidCreateFiles (None :: rest)) h
  = run (onDidCreateFiles rest)
      (emit (ConsoleError "proheader: failed to auto-insert header for created file") h).
Proof. reflexivity. Qed.

(** One created file: what the interactive insertion adds to the trace
    and takes from the answers. *)
Lemma one_created_file (h : Host) (d : TextDocument) :
  document h = Some d ->
  let blank := String.eqb (JS.trim (getText d)) EmptyString in
  List.length (inserted_texts (events (invoke InteractiveInsertOnCreate h)))
  = List.length (inserted_texts (events h)) + (if blank then 1 else 0)
  /\ answers (invoke InteractiveInsertOnCreate h)
     = drop (if blank then 2 else 0) (answers h)
  /\ open_failures (events (invoke InteractiveInsertOnCreate h))
     = open_failures (events h).
Proof.
  intros Hdoc. cbv zeta. unfold open_failures.
  destruct (String.eqb (JS.trim (getText d)) EmptyString) eqn:Hb;
    enter h; rewrite ?Hb; cbn; step; repeat branch;
    rewrite ?inserted_texts_app, ?List.filter_app, ?length_app; cbn;
    (split; [unfold inserted_texts; lia | split; [try reflexivity | lia]]);
    destruct coming as [|? [|? ?]]; reflexivity.
Qed.

End CreatedFiles.

(** X17: the handler of created files inserts one header for every
    file that opens as a blank document and takes two of the coming
    answers for each; every file that cannot be opened is logged once
    on the console, and the other files are processed all the same. *)
Theorem X17_created_files_in_order :
  forall (files : list (option TextDocument)) (h : Host),
    List.length (inserted_texts (events (run (onDidCreateFiles files) h)))
    = List.length (inserted_texts (events h)) + blank_files files
    /\ answers (run (onDidCreateFiles files) h)
       = drop (2 * blank_files files) (answers h)
    /\ open_failures (events (run (onDidCreateFiles files) h))
       = open_failures (events h) + unopened_files files.
Proof.
  unfold blank_files, unopened_files.
  induction files as [|[d|] files IH]; intros h.
  - cbn. rewrite !Nat.add_0_r. auto.
  - rewrite handler_opened.
    destruct (IH (invoke InteractiveInsertOnCreate (with_document (Some d) h)))
      as (Hi & Ha & Hf).
    destruct (one_created_file (with_document (Some d) h) d eq_refl) as (Hi1 & Ha1 & Hf1).
    rewrite Hi, Ha, Hf, Hi1, Ha1, Hf1. cbn [List.filter is_blank_file is_unopened].
    change (events (with_document (Some d) h)) with (events h).
    change (answers (with_document (Some d) h)) with (answers h).
    destruct (String.eqb (JS.trim (getText d)) EmptyString); cbn [List.length].
    + split; [lia|]. split; [|lia]. rewrite drop_drop. f_equal. lia.
    + split; [lia|]. split; [|lia]. reflexivity.
  - rewrite handler_unopened.
    destruct (IH (emit (ConsoleError
                          "proheader: failed to auto-insert header for created file") h))
      as (Hi & Ha & Hf).
    rewrite Hi, Ha, Hf. cbn [List.filter is_blank_file is_unopened List.length].
    unfold open_failures. cbn [events emit].
    rewrite inserted_texts_app, List.filter_app, !length_app. cbn. split; [lia|].
    split; [reflexivity | lia].
Qed.

Section HeaderFields.

Lemma or_str_orElse (v : JS.value) (dflt : string) :
  JS.or_str (JS.orElse v dflt) dflt = JS.orElse v dflt.
Proof. destruct v as [[|c s]|]; try reflexivity; apply or_str_same. Qed.

Lemma with_shebang_cases (det : Detected) (c more : string) :
  exists pre,
    (pre = EmptyString \/ pre = shebang_line)
    /\ with_shebang det (c ++ more) = pre ++ c ++ more.
Proof.
  unfold with_shebang. destruct (shebang det).
  - exists shebang_line. auto.
  - exists EmptyString. auto.
Qed.

Lemma with_shebang_cases_plain (det : Detected) (c : string) :
  exists pre,
    (pre = EmptyString \/ pre = shebang_line) /\ with_shebang det c = pre ++ c.
Proof.
  unfold with_shebang. destruct (shebang det).
  - exists shebang_line. auto.
  - exists EmptyString. auto.
Qed.

End HeaderFields.

(** X18: whatever an entry point inserts is its comment block, with
    the shebang line before it when the style asks for one and the
    additions of the extension after it.  The block carries the file
    name, today's date, and: for the legacy command the answers to the
    two prompts as they are (a dismissed author prompt leaves the
    author out); for the current command and the interactive insertion
    on creation the answered author, or the default author when the
    answer is empty or dismissed; for the insertion without prompts no
    description and the default author. *)
Theorem X18_header_fields :
  forall (ep : EntryPoint) (h : Host) (d : TextDocument) (t : string),
    document h = Some d ->
    In t (inserted_texts (new_events ep h)) ->
    exists pre more,
      (pre = EmptyString \/ pre = shebang_line)
      /\ t = pre ++ header_block ep h d ++ more.
Proof.
  intros ep h d t Hdoc.
  unfold header_block, header_description, header_author, detected_by.
  destruct ep; enter h; coming_cases; cbn; repeat branch; fresh_events;
    (intros [<-|[]] || tauto);
    rewrite ?or_str_orElse;
    repeat match goal with
           | |- context [additions ?id ?c] =>
               let r := fresh "r" in destruct (additions_around id c) as [r ->]
           end;
    match goal with
    | |- context [with_shebang ?det (?c ++ ?m)] =>
        destruct (with_shebang_cases det c m) as (pre & Hpre & ->);
        exists pre, m; split; [exact Hpre | reflexivity]
    | |- context [with_shebang ?det ?c] =>
        destruct (with_shebang_cases_plain det c) as (pre & Hpre & ->);
        exists pre, EmptyString; split; [exact Hpre | now rewrite append_nil_r]
    | |- exists pre more, _ /\ ?c ++ ?m = _ =>
        exists EmptyString, m; auto
    | |- exists pre more, _ /\ ?c = _ =>
        exists EmptyString, EmptyString; split; [auto | now rewrite append_nil_r]
    end.
Qed.

Lemma X18_header_fields_witness :
  exists pre more,
    (pre = EmptyString \/ pre = shebang_line)
    /\ Legacy.makeCommentBlock "a.c" None None (Some "2025-10-22")
       = pre ++ header_block LegacyInsertHeader (host_of "/w/a.c" EmptyString ∅ [])
                  (mkDocument "/w/a.c" "/w/a.c" "/w/a.c" EmptyString)
             ++ more.
Proof.
  apply (X18_header_fields LegacyInsertHeader (host_of "/w/a.c" EmptyString ∅ [])
           (mkDocument "/w/a.c" "/w/a.c" "/w/a.c" EmptyString)); [reflexivity|].
  left. reflexivity.
Defined.

(** X19: an invocation keeps the events so far and adds its own after
    them; it never changes the environment, the clock or whether the
    settings accept writes; of the settings it changes at most the key
    defaultAuthor, and the legacy command and the insertion without
    prompts change none. *)
Theorem X19_frame :
  forall (ep : EntryPoint) (h : Host),
    events (invoke ep h) = app (events h) (new_events ep h)
    /\ environment (invoke ep h) = environment h
    /\ clock (invoke ep h) = clock h
    /\ settings_writable (invoke ep h) = settings_writable h
    /\ (forall key, key <> "defaultAuthor" ->
          configuration (invoke ep h) !! key = configuration h !! key)
    /\ (ep = LegacyInsertHeader \/ ep = AutoInsertHeader ->
        configuration (invoke ep h) = configuration h).
Proof.
  intros ep h.
  destruct (document h) as [d|] eqn:Hdoc; destruct ep; enter h; repeat branch;
    rewrite <- ?app_assoc; rewrite ?drop_app_length, ?drop_all, ?app_nil_r;
    (split; [reflexivity|]); (split; [reflexivity|]); (split; [reflexivity|]);
    (split; [reflexivity|]);
    (split; [intros key Hkey; first [reflexivity | now apply lookup_insert_ne]|]);
    intros [E|E]; first [reflexivity | discriminate E].
Qed.

(** X20: in block style the comment block of the current variant is
    the one of the legacy variant for the file name with one more space
    before it: the two variants differ in the pad of the name line
    only. *)
Theorem X20_variants_differ_by_a_space :
  forall (f : string) (d a dt : JS.value),
    makeCommentBlock f d a dt "block" = Legacy.makeCommentBlock (" " ++ f) d a dt.
Proof.
  intros f d a dt. rewrite makeCommentBlock_frame, legacy_makeCommentBlock_frame.
  destruct d as [[|? ?]|], a as [[|? ?]|], dt as [[|? ?]|]; reflexivity.
Qed.
